(** * Rideau Canal dashboard: the API server (server.js)

    A shallow embedding of the decision logic of [server.js]: the reading
    normalizer [normalizeDoc], the latest-reading fetcher [getLatestData],
    the history and status handlers and the route table, together with the
    properties the specification states about them.

    Conventions of the embedding.
    - A JavaScript string is a [string] of code units below 256 (Latin-1);
      on that range [toLowerCase] and the regular-expression class [\s] are
      modelled exactly.
    - A JavaScript value coming from the store (a parsed JSON document) is a
      [jsval].  Numbers only pass through the server (or are tested for
      truthiness), so the model carries integral numbers.
    - An exception is a value of [exn]; code that can throw returns a
      [result]; code that also writes to the console runs in the monad [M],
      which collects the console lines in order.
    - An instant is a number of milliseconds since the epoch, as in a
      JavaScript [Date]; [None] stands for an Invalid Date. *)

From Stdlib Require Import ZArith List String Ascii Bool Lia.
From Stdlib Require Import Sorting.Sorted Sorting.Permutation.
Import ListNotations.

Set Implicit Arguments.
Set Warnings "-register-all".

Local Open Scope string_scope.

(* ================================================================= *)
(** ** JavaScript values, exceptions and the console *)

Inductive jsval : Type :=
| JUndefined
| JNull
| JBool (b : bool)
| JNum (n : Z)
| JStr (s : string)
| JArr (items : list jsval)
| JObj (fields : list (string * jsval)).

Inductive exn : Type :=
| TypeError (message : string)
| RangeError (message : string)
| Error (message : string).

Definition message (e : exn) : string :=
  match e with
  | TypeError m | RangeError m | Error m => m
  end.

Inductive result (A : Type) : Type :=
| Ok (a : A)
| Throw (e : exn).

Arguments Ok {A} a.
Arguments Throw {A} e.

Inductive console : Type :=
| console_log (text : string) (args : list jsval)
| console_error (text : string) (args : list jsval).

(** ToBoolean: the values [undefined], [null], [false], [0] and the empty
    string are falsy, every other value is truthy. *)
Definition truthy (v : jsval) : bool :=
  match v with
  | JUndefined | JNull => false
  | JBool b => b
  | JNum n => negb (n =? 0)%Z
  | JStr s => negb (s =? EmptyString)
  | JArr _ | JObj _ => true
  end.

(** [a || b] of JavaScript, on values. *)
Definition js_or (a b : jsval) : jsval := if truthy a then a else b.

Fixpoint assoc (k : string) (fields : list (string * jsval)) : jsval :=
  match fields with
  | [] => JUndefined
  | (k', v) :: rest => if k' =? k then v else assoc k rest
  end.

(** [v.k] for a truthy [v] and one of the document field names used by the
    server: the field of an object, [undefined] on anything else. *)
Definition prop (v : jsval) (k : string) : jsval :=
  match v with
  | JObj fields => assoc k fields
  | _ => JUndefined
  end.

(* ================================================================= *)
(** ** Strings *)

Module Str.

Definition code (c : ascii) : N := N_of_ascii c.

(** Upper-case letters of Latin-1: A-Z and U+00C0-U+00DE without U+00D7. *)
Definition is_upper (c : ascii) : bool :=
  let n := code c in
  ((65 <=? n) && (n <=? 90)
   || (192 <=? n) && (n <=? 222) && negb (n =? 215))%N.

Definition lower_char (c : ascii) : ascii :=
  if is_upper c then ascii_of_N (code c + 32) else c.

(** [String.prototype.toLowerCase]. *)
Fixpoint toLowerCase (s : string) : string :=
  match s with
  | EmptyString => EmptyString
  | String c r => String (lower_char c) (toLowerCase r)
  end.

(** The class [\s]: tab, line feed, vertical tab, form feed, carriage
    return, space and the no-break space. *)
Definition is_space (c : ascii) : bool :=
  let n := code c in
  ((9 <=? n) && (n <=? 13) || (n =? 32) || (n =? 160))%N.

Definition apostrophe : ascii := "'"%char.

Definition is_apostrophe (c : ascii) : bool := Ascii.eqb c apostrophe.

(** [s.replace(/'/g, EmptyString)]: every apostrophe is removed. *)
Fixpoint remove_apostrophes (s : string) : string :=
  match s with
  | EmptyString => EmptyString
  | String c r =>
      if is_apostrophe c then remove_apostrophes r
      else String c (remove_apostrophes r)
  end.

(** [s.replace(/\s+/g, "-")]: a left-to-right scan in which every maximal
    run of white space is replaced by one hyphen.  [in_run] tells that the
    previous character belonged to a run already replaced. *)
Fixpoint replace_space_runs (in_run : bool) (s : string) : string :=
  match s with
  | EmptyString => EmptyString
  | String c r =>
      if is_space c then
        if in_run then replace_space_runs true r
        else String "-" (replace_space_runs true r)
      else String c (replace_space_runs false r)
  end.

Fixpoint all_chars (p : ascii -> bool) (s : string) : bool :=
  match s with
  | EmptyString => true
  | String c r => p c && all_chars p r
  end.

End Str.

(** The chain applied to [raw.location] by [normalizeDoc]:
    [.toLowerCase().replace(/'/g, EmptyString).replace(/\s+/g, "-")]. *)
Definition normalizeLocation (s : string) : string :=
  Str.replace_space_runs false (Str.remove_apostrophes (Str.toLowerCase s)).

(** [v.toLowerCase()] where [v] is the value of the expression [expr]: only
    a string has the method; on [undefined] and [null] the property read
    throws, on every other value the call does. *)
Definition call_toLowerCase (expr : string) (v : jsval) : result string :=
  match v with
  | JStr s => Ok (Str.toLowerCase s)
  | JUndefined =>
      Throw (TypeError "Cannot read properties of undefined (reading 'toLowerCase')")
  | JNull =>
      Throw (TypeError "Cannot read properties of null (reading 'toLowerCase')")
  | _ => Throw (TypeError (expr ++ ".toLowerCase is not a function"))
  end.

(* ================================================================= *)
(** ** normalizeDoc *)

Definition normalizeDoc (raw : jsval) : result jsval :=
  if negb (truthy raw) then Ok JNull
  else
    match call_toLowerCase "raw.location" (prop raw "location") with
    | Throw e => Throw e
    | Ok lowered =>
        Ok (JObj
              [ ("location",
                 JStr (Str.replace_space_runs false
                         (Str.remove_apostrophes lowered)));
                ("timestamp", js_or (prop raw "windowEnd") (prop raw "timestamp"));
                ("avgIceThickness", prop raw "avgIceThickness");
                ("avgSurfaceTemperature", prop raw "avgSurfaceTemperature");
                ("maxSnowAccumulation", prop raw "maxSnowAccumulation");
                ("avgExternalTemperature", prop raw "avgExternalTemperature");
                ("safetyStatus", prop raw "safetyStatus");
                ("readingCount", prop raw "readingCount") ])
    end.

(* ================================================================= *)
(** ** The monad of handler code: console output and exceptions *)

Definition M (A : Type) : Type := (list console * result A)%type.

Definition ret {A} (a : A) : M A := ([], Ok a).

Definition lift {A} (r : result A) : M A := ([], r).

Definition say (c : console) : M unit := ([c], Ok tt).

Definition bind {A B} (m : M A) (k : A -> M B) : M B :=
  match m with
  | (out, Throw e) => (out, Throw e)
  | (out, Ok a) => let (out', r) := k a in ((out ++ out')%list, r)
  end.

(** [try { m } catch (err) { h err }]: what [m] printed before it threw
    stays printed. *)
Definition try_catch {A} (m : M A) (h : exn -> M A) : M A :=
  match m with
  | (out, Throw e) => let (out', r) := h e in ((out ++ out')%list, r)
  | (out, Ok a) => (out, Ok a)
  end.

Definition output {A} (m : M A) : list console := fst m.
Definition outcome {A} (m : M A) : result A := snd m.

Declare Scope js_scope.
Delimit Scope js_scope with js.
Notation "x <- m ;; k" := (bind m (fun x => k))
  (at level 61, m at next level, right associativity) : js_scope.
Notation "m ;;; k" := (bind m (fun _ => k))
  (at level 61, right associativity) : js_scope.
Local Open Scope js_scope.

(** [l.map(f)] for an [f] that can throw: the first exception ends the map. *)
Fixpoint map_result {A B} (f : A -> result B) (l : list A) : result (list B) :=
  match l with
  | [] => Ok []
  | a :: rest =>
      match f a with
      | Throw e => Throw e
      | Ok b =>
          match map_result f rest with
          | Throw e => Throw e
          | Ok bs => Ok (b :: bs)
          end
      end
  end.

(** [v.k] for any [v]: reading a property of [undefined] or [null] throws. *)
Definition read_prop (v : jsval) (k : string) : result jsval :=
  match v with
  | JUndefined =>
      Throw (TypeError ("Cannot read properties of undefined (reading '" ++ k ++ "')"))
  | JNull =>
      Throw (TypeError ("Cannot read properties of null (reading '" ++ k ++ "')"))
  | _ => Ok (prop v k)
  end.

(* ================================================================= *)
(** ** The store client *)

(** The three queries the handlers below send, with their parameters. *)
Inductive querySpec : Type :=
| LatestByLocation (loc : string)
    (* SELECT * FROM c WHERE c.location = @loc
       ORDER BY c.windowEnd DESC OFFSET 0 LIMIT 1 *)
| HistorySince (loc : string) (cut : string)
    (* SELECT * FROM c WHERE c.location = @loc AND c.windowEnd >= @cut
       ORDER BY c.windowEnd ASC *)
| DistinctLocations.
    (* SELECT DISTINCT c.location FROM c *)

(** [container.items.query(q).fetchAll()]: the [resources] array, or the
    exception of a failed query. *)
Definition Container : Type := querySpec -> result (list jsval).

(* ================================================================= *)
(** ** Name variants *)

Definition displayName (locationKey : string) : jsval :=
  if locationKey =? "dows-lake" then JStr "Dow's Lake"
  else if locationKey =? "fifth-avenue" then JStr "Fifth Avenue"
  else if locationKey =? "nac" then JStr "NAC"
  else JNull.

(** The strings among [l]; after [filter(Boolean)] the variants are all
    strings. *)
Fixpoint strings (l : list jsval) : list string :=
  match l with
  | [] => []
  | JStr s :: rest => s :: strings rest
  | _ :: rest => strings rest
  end.

(** [[locationKey, alias-or-null].filter(Boolean)]. *)
Definition locationVariants (locationKey : string) : list string :=
  strings (filter truthy [JStr locationKey; displayName locationKey]).

(* ================================================================= *)
(** ** getLatestData *)

Section Fetch.

(** The module-level [container]: [None] when it was never assigned. *)
Variable container : option Container.

(** One turn of the loop over the variants: [Some doc] is the [return] out
    of the function, [None] goes on with the next variant. *)
Definition latestAttempt (c : Container) (locationKey loc : string)
  : M (option jsval) :=
  try_catch
    (resources <- lift (c (LatestByLocation loc)) ;;
     match resources with
     | first :: _ =>
         say (console_log
                ("Found data for location: " ++ loc ++
                 " (searched as: " ++ locationKey ++ ")") []) ;;;
         doc <- lift (normalizeDoc first) ;;
         ret (Some doc)
     | [] => ret None
     end)
    (fun err =>
       say (console_error ("Error querying location " ++ loc ++ ":")
              [JStr (message err)]) ;;;
       ret None).

(** The diagnostic query issued when no variant matched. *)
Definition reportAvailable (c : Container) : M unit :=
  try_catch
    (resources <- lift (c DistinctLocations) ;;
     match resources with
     | _ :: _ =>
         names <- lift (map_result (fun r => read_prop r "location") resources) ;;
         say (console_log "Available locations in Cosmos DB:" [JArr names])
     | [] => ret tt
     end)
    (fun err =>
       say (console_error "Error checking available locations:"
              [JStr (message err)])).

Fixpoint latestLoop (c : Container) (locationKey : string)
  (variants : list string) : M jsval :=
  match variants with
  | loc :: rest =>
      found <- latestAttempt c locationKey loc ;;
      match found with
      | Some doc => ret doc
      | None => latestLoop c locationKey rest
      end
  | [] =>
      reportAvailable c ;;;
      say (console_log ("No data found for location: " ++ locationKey) []) ;;;
      ret JNull
  end.

Definition getLatestData (locationKey : string) : M jsval :=
  match container with
  | None =>
      say (console_error "Container not initialized" []) ;;;
      ret JNull
  | Some c => latestLoop c locationKey (locationVariants locationKey)
  end.

End Fetch.

(* ================================================================= *)
(** ** Dates *)

Module Date.

Local Open Scope Z_scope.

Definition msPerHour : Z := 3600000.
Definition msPerDay : Z := 86400000.

(** TimeClip: a time value is valid up to 8.64e15 ms on either side of the
    epoch; beyond, the Date is invalid. *)
Definition timeClip (t : Z) : option Z :=
  if Z.abs t <=? 8640000000000000 then Some t else None.

(** Year, month and day of a day number counted from 1970-01-01
    (proleptic Gregorian calendar). *)
Definition civil (days : Z) : Z * Z * Z :=
  let z := days + 719468 in
  let era := z / 146097 in
  let doe := z mod 146097 in
  let yoe := (doe - doe / 1460 + doe / 36524 - doe / 146096) / 365 in
  let doy := doe - (365 * yoe + yoe / 4 - yoe / 100) in
  let mp := (5 * doy + 2) / 153 in
  let d := doy - (153 * mp + 2) / 5 + 1 in
  let m := if mp <? 10 then mp + 3 else mp - 9 in
  let y := yoe + era * 400 + (if m <=? 2 then 1 else 0) in
  (y, m, d).

Definition digit (n : Z) : ascii := ascii_of_N (48 + Z.to_N (n mod 10)).

(** [n] written with [width] decimal digits, zero padded. *)
Fixpoint digits (width : nat) (n : Z) : string :=
  match width with
  | O => EmptyString
  | S w => (digits w (n / 10)%Z ++ String (digit n) EmptyString)%string
  end.

Definition year (y : Z) : string :=
  if (0 <=? y) && (y <=? 9999) then digits 4 y
  else ((if (y <? 0)%Z then "-" else "+") ++ digits 6 (Z.abs y))%string.

Definition format (t : Z) : string :=
  let '(y, m, d) := civil (t / msPerDay) in
  let r := t mod msPerDay in
  (year y ++ "-" ++ digits 2 m ++ "-" ++ digits 2 d ++ "T"
     ++ digits 2 (r / msPerHour)%Z ++ ":" ++ digits 2 (r / 60000 mod 60)%Z ++ ":"
     ++ digits 2 (r / 1000 mod 60)%Z ++ "." ++ digits 3 (r mod 1000)%Z ++ "Z")%string.

(** [Date.prototype.toISOString]: throws on an Invalid Date. *)
Definition toISOString (d : option Z) : result string :=
  match d with
  | Some t => Ok (format t)
  | None => Throw (RangeError "Invalid time value")
  end.

(** The local time zone of the process.  [offsetAt t] is the offset of
    local time from UTC, in milliseconds, at the instant [t]
    (LocalTZA(t, true)); [offsetOfLocal tl] is the offset by which the
    local time value [tl] is read back as an instant (LocalTZA(tl, false)).
    The two differ around a change of offset. *)
Record zone : Type := { offsetAt : Z -> Z; offsetOfLocal : Z -> Z }.

Definition utc : zone :=
  {| offsetAt := fun _ => 0; offsetOfLocal := fun _ => 0 |}.

(** LocalTime(t) and UTC(tl). *)
Definition localTime (z : zone) (t : Z) : Z := t + offsetAt z t.
Definition toUTC (z : zone) (tl : Z) : Z := tl - offsetOfLocal z tl.

(** [d.getHours()]: the hour of the local time of the Date [t]. *)
Definition getHours (z : zone) (t : Z) : Z :=
  (localTime z t mod msPerDay) / msPerHour.

(** [d.setHours(hour)]: the local day, minutes, seconds and milliseconds
    of [t] are kept, the hour is replaced (it may lie outside 0-23), and
    the local time so made is read back as an instant. *)
Definition setHours (z : zone) (t hour : Z) : option Z :=
  let tl := localTime z t in
  let r := tl mod msPerDay in
  let time :=
    hour * msPerHour + (r / 60000 mod 60) * 60000
    + (r / 1000 mod 60) * 1000 + r mod 1000 in
  timeClip (toUTC z (tl / msPerDay * msPerDay + time)).

(** [d.setHours(d.getHours() - hours)] on the Date [t]. *)
Definition minusHours (z : zone) (t hours : Z) : option Z :=
  setHours z t (getHours z t - hours).

(** The day number of a date of the proleptic Gregorian calendar. *)
Definition daysFromCivil (y m d : Z) : Z :=
  let y' := if m <=? 2 then y - 1 else y in
  let era := y' / 400 in
  let yoe := y' mod 400 in
  let mp := if m <=? 2 then m + 9 else m - 3 in
  let doy := (153 * mp + 2) / 5 + d - 1 in
  let doe := yoe * 365 + yoe / 4 - yoe / 100 + doy in
  era * 146097 + doe - 719468.

(** The number written by the decimal digits of [s]. *)
Fixpoint number (acc : Z) (s : string) : Z :=
  match s with
  | EmptyString => acc
  | String c r => number (acc * 10 + (Z.of_N (N_of_ascii c) - 48)) r
  end.

(** The instant of a string of the form [toISOString] prints
    (YYYY-MM-DDTHH:mm:ss.sssZ); [None] on any other string. *)
Definition parseISO (s : string) : option Z :=
  let field := fun start len : nat => number 0 (substring start len s) in
  let t :=
    daysFromCivil (field 0%nat 4%nat) (field 5%nat 2%nat) (field 8%nat 2%nat)
    * msPerDay
    + field 11%nat 2%nat * msPerHour + field 14%nat 2%nat * 60000
    + field 17%nat 2%nat * 1000 + field 20%nat 3%nat in
  if (format t =? s)%string then timeClip t else None.

(** [a > b] on two Dates: false as soon as one of them is invalid. *)
Definition gt (a b : option Z) : bool :=
  match a, b with
  | Some x, Some y => y <? x
  | _, _ => false
  end.

End Date.

(* ================================================================= *)
(** ** parseInt *)

Module ParseInt.

Local Open Scope Z_scope.

Fixpoint trimStart (s : string) : string :=
  match s with
  | String c r => if Str.is_space c then trimStart r else s
  | EmptyString => s
  end.

(** The value of [c] as a digit, when it is one of 0-9, a-z, A-Z. *)
Definition digitValue (c : ascii) : option Z :=
  let n := Z.of_N (Str.code c) in
  if (48 <=? n) && (n <=? 57) then Some (n - 48)
  else if (97 <=? n) && (n <=? 122) then Some (n - 87)
  else if (65 <=? n) && (n <=? 90) then Some (n - 55)
  else None.

(** The longest prefix of digits of the radix, read as a number; [acc] is
    [None] until a digit has been read. *)
Fixpoint readDigits (radix : Z) (acc : option Z) (s : string) : option Z :=
  match s with
  | EmptyString => acc
  | String c r =>
      match digitValue c with
      | Some d =>
          if d <? radix then
            readDigits radix
              (Some (match acc with Some a => a * radix + d | None => d end)) r
          else acc
      | None => acc
      end
  end.

Definition unsigned (s : string) : option Z :=
  match s with
  | String "0" (String "x" r) | String "0" (String "X" r) =>
      readDigits 16 None r
  | _ => readDigits 10 None s
  end.

(** [parseInt(s)] without a radix; [None] is NaN. *)
Definition parseInt (s : string) : option Z :=
  match trimStart s with
  | String "-" r => option_map Z.opp (unsigned r)
  | String "+" r => unsigned r
  | t => unsigned t
  end.

End ParseInt.

(** [parseInt(req.query.hours) || 1]: an absent parameter is [undefined],
    which [parseInt] reads as the string "undefined"; NaN and 0 are falsy. *)
Definition lookbackHours (hoursParam : option string) : Z :=
  match ParseInt.parseInt
          (match hoursParam with Some s => s | None => "undefined" end) with
  | Some n => if (n =? 0)%Z then 1%Z else n
  | None => 1%Z
  end.

(* ================================================================= *)
(** ** The handlers *)

Record response (B : Type) : Type :=
  { status : nat; headers : list (string * string); body : B }.

Definition noCache : string * string :=
  ("Cache-Control", "no-cache, no-store, must-revalidate").

Definition locations : list string := ["dows-lake"; "fifth-avenue"; "nac"].

(** The body of [GET /api/status]. *)
Record StatusSummary : Type :=
  { systemStatus : string;
    totalLocations : nat;
    safeLocations : nat;
    cautionLocations : nat;
    unsafeLocations : nat;
    lastUpdate : jsval;
    locationData : list (string * jsval) }.

(** The local variables of the [/api/status] handler.  [latestTimestamp] is
    [None] for [null], [Some d] for a Date [d]. *)
Record tally : Type :=
  { t_locationData : list (string * jsval);
    t_total : nat;
    t_safe : nat;
    t_caution : nat;
    t_unsafe : nat;
    t_latestTimestamp : option (option Z) }.

Definition tally0 : tally :=
  {| t_locationData := []; t_total := 0; t_safe := 0; t_caution := 0;
     t_unsafe := 0; t_latestTimestamp := None |}.

(** The three classes a reading is counted in. *)
Inductive safety : Type := Safe | Caution | Unsafe.

Definition classify (status : string) : safety :=
  if status =? "safe" then Safe
  else if status =? "caution" then Caution
  else Unsafe.

Definition count (cls : safety) (t : tally) : tally :=
  match cls with
  | Safe =>
      {| t_locationData := t_locationData t; t_total := t_total t;
         t_safe := S (t_safe t); t_caution := t_caution t;
         t_unsafe := t_unsafe t; t_latestTimestamp := t_latestTimestamp t |}
  | Caution =>
      {| t_locationData := t_locationData t; t_total := t_total t;
         t_safe := t_safe t; t_caution := S (t_caution t);
         t_unsafe := t_unsafe t; t_latestTimestamp := t_latestTimestamp t |}
  | Unsafe =>
      {| t_locationData := t_locationData t; t_total := t_total t;
         t_safe := t_safe t; t_caution := t_caution t;
         t_unsafe := S (t_unsafe t); t_latestTimestamp := t_latestTimestamp t |}
  end.

(** The chain of tests that ends the [/api/status] handler. *)
Definition deriveSystemStatus (total safe caution unsafe : nat) : string :=
  if (total =? 0)%nat then "No Data"
  else if (0 <? unsafe)%nat then "Unsafe"
  else if (0 <? caution)%nat then "Caution"
  else if (safe =? total)%nat then "Safe"
  else "Unknown".

Definition dquote : string := String (ascii_of_nat 34) EmptyString.

(** The text of the expression whose [toLowerCase] is called on a status. *)
Definition statusExpr : string :=
  "(data.safetyStatus || " ++ dquote ++ dquote ++ ")".

Section Handlers.

Variable container : option Container.

(** [GET /api/data]: [result[loc] = data] for the locations with data. *)
Fixpoint dataLoop (locs : list string) (result : list (string * jsval))
  : M (list (string * jsval)) :=
  match locs with
  | [] => ret result
  | loc :: rest =>
      data <- getLatestData container loc ;;
      dataLoop rest
        (if truthy data then (result ++ [(loc, data)])%list else result)
  end.

Definition dataHandler : M (response jsval) :=
  result <- dataLoop locations [] ;;
  ret {| status := 200; headers := [noCache]; body := JObj result |}.

(** [GET /api/data/:location]. *)
Definition dataLocationHandler (location : string) : M (response jsval) :=
  data <- getLatestData container location ;;
  if negb (truthy data) then
    ret {| status := 404; headers := [];
           body := JObj [("error", JStr "No data for location")] |}
  else ret {| status := 200; headers := []; body := data |}.

(** One turn of the loop of the history handler: [Some resources] is the
    assignment to [allResources] followed by [break]. *)
Definition historyAttempt (c : Container) (cutoff : option Z) (loc : string)
  : M (option (list jsval)) :=
  try_catch
    (cut <- lift (Date.toISOString cutoff) ;;
     resources <- lift (c (HistorySince loc cut)) ;;
     match resources with
     | _ :: _ => ret (Some resources)
     | [] => ret None
     end)
    (fun err =>
       say (console_error ("Error querying history for " ++ loc ++ ":")
              [JStr (message err)]) ;;;
       ret None).

Fixpoint historyLoop (c : Container) (cutoff : option Z)
  (variants : list string) : M (list jsval) :=
  match variants with
  | [] => ret []
  | loc :: rest =>
      found <- historyAttempt c cutoff loc ;;
      match found with
      | Some resources => ret resources
      | None => historyLoop c cutoff rest
      end
  end.

(** [GET /api/history/:location?hours=N], answered at the instant [now]
    by a process whose local time zone is [zone]. *)
Definition historyHandler (zone : Date.zone) (now : Z) (location : string)
  (hoursParam : option string) : M (response jsval) :=
  match container with
  | None =>
      ret {| status := 500; headers := [noCache];
             body := JObj [("error", JStr "Container not initialized")] |}
  | Some c =>
      let hours := lookbackHours hoursParam in
      let cutoff := Date.minusHours zone now hours in
      allResources <- historyLoop c cutoff (locationVariants location) ;;
      docs <- lift (map_result normalizeDoc allResources) ;;
      ret {| status := 200; headers := [noCache]; body := JArr docs |}
  end.

(** [new Date(v)] for a value [v] of a reading's [timestamp] field: the
    time value, [None] for an Invalid Date.  Parsing is left to the
    platform. *)
Variable newDate : jsval -> option Z.

(** The body of the loop of the status handler for a present reading. *)
Definition tallyReading (loc : string) (data : jsval) (t : tally) : result tally :=
  match call_toLowerCase statusExpr
          (js_or (prop data "safetyStatus") (JStr EmptyString)) with
  | Throw e => Throw e
  | Ok status =>
      let t1 :=
        count (classify status)
          {| t_locationData := (t_locationData t ++ [(loc, data)])%list;
             t_total := S (t_total t);
             t_safe := t_safe t; t_caution := t_caution t;
             t_unsafe := t_unsafe t;
             t_latestTimestamp := t_latestTimestamp t |} in
      Ok (if truthy (prop data "timestamp") then
            let ts := newDate (prop data "timestamp") in
            if match t_latestTimestamp t1 with
               | None => true
               | Some latest => Date.gt ts latest
               end
            then
              {| t_locationData := t_locationData t1; t_total := t_total t1;
                 t_safe := t_safe t1; t_caution := t_caution t1;
                 t_unsafe := t_unsafe t1; t_latestTimestamp := Some ts |}
            else t1
          else t1)
  end.

Fixpoint statusLoop (locs : list string) (t : tally) : M tally :=
  match locs with
  | [] => ret t
  | loc :: rest =>
      data <- getLatestData container loc ;;
      if truthy data then
        t' <- lift (tallyReading loc data t) ;;
        statusLoop rest t'
      else statusLoop rest t
  end.

(** [GET /api/status]. *)
Definition statusHandler : M (response StatusSummary) :=
  t <- statusLoop locations tally0 ;;
  let systemStatus :=
    deriveSystemStatus (t_total t) (t_safe t) (t_caution t) (t_unsafe t) in
  lastUpdate <-
    lift (match t_latestTimestamp t with
          | Some d =>
              match Date.toISOString d with
              | Ok iso => Ok (JStr iso)
              | Throw e => Throw e
              end
          | None => Ok JNull
          end) ;;
  ret {| status := 200; headers := [noCache];
         body := {| systemStatus := systemStatus;
                    totalLocations := t_total t;
                    safeLocations := t_safe t;
                    cautionLocations := t_caution t;
                    unsafeLocations := t_unsafe t;
                    lastUpdate := lastUpdate;
                    locationData := t_locationData t |} |}.

End Handlers.

(* ================================================================= *)
(** ** The route table *)

Module Router.

Inductive segment : Type :=
| Lit (s : string)
| Param (name : string).

Inductive handler : Type :=
| ApiData
| ApiDataLocation
| ApiHistoryLocation
| ApiStatus
| ApiDebug
| Root.

(** The [app.get] registrations of server.js, in order; a path is the
    list of its segments. *)
Definition routes : list (list segment * handler) :=
  [ ([Lit "api"; Lit "data"], ApiData);
    ([Lit "api"; Lit "data"; Param "location"], ApiDataLocation);
    ([Lit "api"; Lit "history"; Param "location"], ApiHistoryLocation);
    ([Lit "api"; Lit "status"], ApiStatus);
    ([Lit "api"; Lit "debug"], ApiDebug);
    ([], Root) ].

(** A literal segment matches without regard to case, a parameter matches
    any segment that is not empty. *)
Fixpoint matches (pattern : list segment) (path : list string) : bool :=
  match pattern, path with
  | [], [] => true
  | Lit s :: pattern', x :: path' =>
      (Str.toLowerCase x =? Str.toLowerCase s) && matches pattern' path'
  | Param _ :: pattern', x :: path' =>
      negb (x =? EmptyString) && matches pattern' path'
  | _, _ => false
  end.

(** The handler of the first route that matches a GET of [path]; [None]
    when no route does, in which case the framework answers 404. *)
Fixpoint find (table : list (list segment * handler)) (path : list string)
  : option handler :=
  match table with
  | [] => None
  | (pattern, h) :: rest =>
      if matches pattern path then Some h else find rest path
  end.

Definition dispatch (path : list string) : option handler := find routes path.

End Router.

(* ================================================================= *)
(** ** The store behind the client *)

(** What the three queries mean on a container holding a list of documents.
    String comparison in the store is the lexicographic order of code units,
    under which ISO-8601 instants of one format are ordered as the instants
    they denote.  A query that orders by [c.windowEnd] ranges over the
    documents that have a string [windowEnd]; among equal keys the stored
    order is kept. *)
Module Cosmos.

Record store : Type :=
  { documents : list jsval;
    (** The queries that fail, with the exception they raise. *)
    failure : querySpec -> option exn }.

Definition hasLocation (loc : string) (d : jsval) : bool :=
  match prop d "location" with
  | JStr s => s =? loc
  | _ => false
  end.

Definition windowEnd (d : jsval) : option string :=
  match prop d "windowEnd" with
  | JStr w => Some w
  | _ => None
  end.

Definition hasWindowEnd (d : jsval) : bool :=
  match windowEnd d with Some _ => true | None => false end.

Definition key (d : jsval) : string :=
  match windowEnd d with Some w => w | None => EmptyString end.

(** [c.windowEnd >= @cut]. *)
Definition since (cut : string) (d : jsval) : bool :=
  match windowEnd d with
  | Some w => String.leb cut w
  | None => false
  end.

Definition ascending (a b : jsval) : bool := String.leb (key a) (key b).
Definition descending (a b : jsval) : bool := String.leb (key b) (key a).

Section Sort.
Variable le : jsval -> jsval -> bool.

Fixpoint insert (x : jsval) (l : list jsval) : list jsval :=
  match l with
  | [] => [x]
  | y :: rest => if le x y then x :: l else y :: insert x rest
  end.

Fixpoint sort (l : list jsval) : list jsval :=
  match l with
  | [] => []
  | x :: rest => insert x (sort rest)
  end.
End Sort.

Fixpoint jsval_eqb (a b : jsval) : bool :=
  match a, b with
  | JUndefined, JUndefined => true
  | JNull, JNull => true
  | JBool x, JBool y => Bool.eqb x y
  | JNum x, JNum y => (x =? y)%Z
  | JStr x, JStr y => (x =? y)%string
  | JArr xs, JArr ys =>
      (fix all2 (xs ys : list jsval) : bool :=
         match xs, ys with
         | [], [] => true
         | x :: xs', y :: ys' => jsval_eqb x y && all2 xs' ys'
         | _, _ => false
         end) xs ys
  | JObj xs, JObj ys =>
      (fix all2 (xs ys : list (string * jsval)) : bool :=
         match xs, ys with
         | [], [] => true
         | (k, x) :: xs', (k', y) :: ys' =>
             (k =? k')%string && jsval_eqb x y && all2 xs' ys'
         | _, _ => false
         end) xs ys
  | _, _ => false
  end.

(** The projection [c.location] of one document: an absent field is left
    out of the projected object. *)
Definition projectLocation (d : jsval) : jsval :=
  match prop d "location" with
  | JUndefined => JObj []
  | v => JObj [("location", v)]
  end.

Fixpoint distinct (l : list jsval) : list jsval :=
  match l with
  | [] => []
  | x :: rest =>
      x :: filter (fun y => negb (jsval_eqb x y)) (distinct rest)
  end.

Definition eval (docs : list jsval) (q : querySpec) : list jsval :=
  match q with
  | LatestByLocation loc =>
      firstn 1
        (sort descending
           (filter (fun d => hasLocation loc d && hasWindowEnd d) docs))
  | HistorySince loc cut =>
      sort ascending (filter (fun d => hasLocation loc d && since cut d) docs)
  | DistinctLocations => distinct (map projectLocation docs)
  end.

Definition run (s : store) : Container :=
  fun q =>
    match failure s q with
    | Some e => Throw e
    | None => Ok (eval (documents s) q)
    end.

(** A store all of whose queries succeed. *)
Definition healthy (docs : list jsval) : store :=
  {| documents := docs; failure := fun _ => None |}.

End Cosmos.

(* ================================================================= *)
(** ** The specification's wording, as definitions *)

Module Spec.

Import Cosmos.

(** The known display-name alias of a key. *)
Definition aliasOf (key : string) : option string :=
  if key =? "dows-lake" then Some "Dow's Lake"
  else if key =? "fifth-avenue" then Some "Fifth Avenue"
  else if key =? "nac" then Some "NAC"
  else None.

(** The key itself followed by its alias if one exists. *)
Definition variants (key : string) : list string :=
  key :: match aliasOf key with Some a => [a] | None => [] end.

(** The newest record of a list by [windowEnd]: the first of those with
    the greatest value. *)
Fixpoint newest (l : list jsval) : option jsval :=
  match l with
  | [] => None
  | d :: rest =>
      match newest rest with
      | Some m => if String.leb (key m) (key d) then Some d else Some m
      | None => Some d
      end
  end.

(** The records stored under one name variant. *)
Definition recordsOf (s : store) (loc : string) : list jsval :=
  filter (fun d => hasLocation loc d && hasWindowEnd d) (documents s).

(** What one variant yields to the latest-reading fetcher: its newest
    record; nothing when it has no record or when its query fails. *)
Definition yields (s : store) (loc : string) : option jsval :=
  match failure s (LatestByLocation loc) with
  | Some _ => None
  | None => newest (recordsOf s loc)
  end.

(** The record of the first variant, in order, that yields one. *)
Fixpoint firstYield (s : store) (variants : list string) : option jsval :=
  match variants with
  | [] => None
  | loc :: rest =>
      match yields s loc with
      | Some d => Some d
      | None => firstYield s rest
      end
  end.

(** The records of one variant inside the window; none when its query
    fails. *)
Definition inWindow (s : store) (cut : string) (loc : string) : list jsval :=
  match failure s (HistorySince loc cut) with
  | Some _ => []
  | None => filter (fun d => hasLocation loc d && since cut d) (documents s)
  end.

(** The records of the first variant, in order, with any in the window. *)
Fixpoint firstInWindow (s : store) (cut : string) (variants : list string)
  : list jsval :=
  match variants with
  | [] => []
  | loc :: rest =>
      match inWindow s cut loc with
      | [] => firstInWindow s cut rest
      | l => l
      end
  end.

(** Equality of two strings without regard to case. *)
Definition equalIgnoringCase (a b : string) : bool :=
  Str.toLowerCase a =? Str.toLowerCase b.

(** The class of a reading: safe and caution by name, everything else,
    an absent status included, unsafe. *)
Definition safetyClass (data : jsval) : safety :=
  match prop data "safetyStatus" with
  | JStr s =>
      if equalIgnoringCase s "safe" then Safe
      else if equalIgnoringCase s "caution" then Caution
      else Unsafe
  | _ => Unsafe
  end.

Definition isClass (cls : safety) (data : jsval) : bool :=
  match cls, safetyClass data with
  | Safe, Safe | Caution, Caution | Unsafe, Unsafe => true
  | _, _ => false
  end.

Definition countClass (cls : safety) (readings : list jsval) : nat :=
  List.length (filter (isClass cls) readings).

(** The system status by strict priority. *)
Definition priority (total safe caution unsafe : nat) : string :=
  match total with
  | O => "No Data"
  | S _ =>
      match unsafe with
      | S _ => "Unsafe"
      | O =>
          match caution with
          | S _ => "Caution"
          | O => if (safe =? total)%nat then "Safe" else "Unknown"
          end
      end
  end.

End Spec.

(** The value [getLatestData] returns for a location ([null] stands in for
    an exception, which the function never raises). *)
Definition latestOf (container : option Container) (loc : string) : jsval :=
  match outcome (getLatestData container loc) with
  | Ok v => v
  | Throw _ => JNull
  end.

(** The latest readings of the locations that have one. *)
Definition presentReadings (container : option Container) : list jsval :=
  filter truthy (map (latestOf container) locations).

(** A reading whose [safetyStatus] is a string or absent (falsy). *)
Definition statusTyped (data : jsval) : bool :=
  match prop data "safetyStatus" with
  | JStr _ => true
  | v => negb (truthy v)
  end.

(** A reading whose [timestamp], when it has one, is read as a valid Date. *)
Definition datable (newDate : jsval -> option Z) (data : jsval) : bool :=
  if truthy (prop data "timestamp") then
    match newDate (prop data "timestamp") with Some _ => true | None => false end
  else true.

(** A record [normalizeDoc] accepts: a truthy value whose [location] is a
    string. *)
Definition hasStringLocation (raw : jsval) : bool :=
  match prop raw "location" with
  | JStr _ => true
  | _ => false
  end.

(** A character of a normalized location: not an upper-case letter, not an
    apostrophe, not white space. *)
Definition plain (c : ascii) : bool :=
  negb (Str.is_upper c) && negb (Str.is_apostrophe c) && negb (Str.is_space c).

(** The tally holds no Invalid Date. *)
Definition settled (t : tally) : Prop := t_latestTimestamp t <> Some None.

Definition isTypeError {A} (r : result A) : bool :=
  match r with
  | Throw (TypeError _) => true
  | _ => false
  end.

(* ================================================================= *)
(** ** Sample stores *)

Module Examples.

Definition reading (location windowEnd safetyStatus : string) : jsval :=
  JObj [ ("id", JStr (location ++ "-" ++ windowEnd));
         ("location", JStr location);
         ("windowEnd", JStr windowEnd);
         ("avgIceThickness", JNum 32);
         ("avgSurfaceTemperature", JNum (-3));
         ("maxSnowAccumulation", JNum 5);
         ("avgExternalTemperature", JNum (-8));
         ("safetyStatus", JStr safetyStatus);
         ("readingCount", JNum 30) ].

(** 2025-01-15T10:30:00.000Z. *)
Definition now : Z := 1736937000000.

Definition threeHoursAgo : jsval :=
  reading "dows-lake" "2025-01-15T07:30:00.000Z" "Safe".
Definition oneHourAgo : jsval :=
  reading "dows-lake" "2025-01-15T09:30:00.000Z" "Safe".
Definition halfHourAgo : jsval :=
  reading "dows-lake" "2025-01-15T10:00:00.000Z" "Caution".

Definition historyStore : Cosmos.store :=
  Cosmos.healthy [halfHourAgo; threeHoursAgo; oneHourAgo].

(** Fifth Avenue has a record under its key and an older one under its
    display name; the query by key fails. *)
Definition underKey : jsval :=
  reading "fifth-avenue" "2025-01-15T10:25:00.000Z" "Safe".
Definition underAlias : jsval :=
  reading "Fifth Avenue" "2025-01-15T10:20:00.000Z" "Caution".

Definition flakyStore : Cosmos.store :=
  {| Cosmos.documents := [underKey; underAlias];
     Cosmos.failure := fun q =>
       match q with
       | LatestByLocation loc =>
           if loc =? "fifth-avenue" then Some (Error "Request timed out")
           else None
       | _ => None
       end |}.

(** One reading per location, with statuses Safe, Caution, Safe. *)
Definition mixedStore : Cosmos.store :=
  Cosmos.healthy
    [ reading "dows-lake" "2025-01-15T10:25:00.000Z" "Safe";
      reading "Fifth Avenue" "2025-01-15T10:20:00.000Z" "Caution";
      reading "nac" "2025-01-15T10:15:00.000Z" "SAFE" ].

(** The same with an unrecognized status at one location. *)
Definition warningStore : Cosmos.store :=
  Cosmos.healthy
    [ reading "dows-lake" "2025-01-15T10:25:00.000Z" "Safe";
      reading "fifth-avenue" "2025-01-15T10:20:00.000Z" "Warning";
      reading "nac" "2025-01-15T10:15:00.000Z" "Safe" ].

(** [new Date] on the timestamps of the samples, which are strings of the
    form [toISOString] prints, or no dates at all; a number is a time
    value.  Any other string or value is taken as an Invalid Date. *)
Definition newDate (v : jsval) : option Z :=
  match v with
  | JStr iso => Date.parseISO iso
  | JNum ms => Date.timeClip ms
  | _ => None
  end.

(** A client every query of which fails. *)
Definition unreachable : Container :=
  fun _ => Throw (Error "Service unavailable").

(** A record without a [location]. *)
Definition unlocated : jsval :=
  JObj [ ("windowEnd", JStr "2025-01-15T10:25:00.000Z");
         ("safetyStatus", JStr "Safe") ].

(** A client that answers every query about ["nac"] with that record
    after a regular one, and finds nothing under ["NAC"]. *)
Definition strayClient : Container :=
  fun q =>
    match q with
    | LatestByLocation loc =>
        if loc =? "nac" then Ok [unlocated] else Ok []
    | HistorySince loc _ =>
        if loc =? "nac"
        then Ok [reading "nac" "2025-01-15T10:15:00.000Z" "Safe"; unlocated]
        else Ok []
    | DistinctLocations => Ok []
    end.

End Examples.

(* ================================================================= *)
(** ** The dashboard's reading of the API (public/app.js) *)

Module Dashboard.

(** The text of the expression whose [toLowerCase] is called on a status. *)
Definition statusExpr : string := "(status || " ++ dquote ++ dquote ++ ")".

(** [getSafetyBadgeClass(status)]. *)
Definition getSafetyBadgeClass (status : jsval) : result string :=
  match call_toLowerCase statusExpr (js_or status (JStr EmptyString)) with
  | Throw e => Throw e
  | Ok statusLower =>
      Ok (if statusLower =? "safe" then "safe"
          else if statusLower =? "caution" then "caution"
          else "unsafe")
  end.

(** [v != null]: false on [null] and on [undefined] only. *)
Definition notNull (v : jsval) : bool :=
  match v with
  | JUndefined | JNull => false
  | _ => true
  end.

(** The predicate of the chart filter, for the measurement [field]:
    [item && item.timestamp && item[field] != null]. *)
Definition plottable (field : string) (item : jsval) : bool :=
  truthy item && truthy (prop item "timestamp") && notNull (prop item field).

(** A point of a chart series: [{x: new Date(item.timestamp), y: ...}]. *)
Record point : Type := { x : option Z; y : jsval }.

Section Charts.

Variable newDate : jsval -> option Z.

(** [data.filter(...).map(...)] of [updateCharts]. *)
Definition validData (field : string) (data : list jsval) : list point :=
  map (fun item =>
         {| x := newDate (prop item "timestamp"); y := prop item field |})
    (filter (plottable field) data).

End Charts.

End Dashboard.

(* ================================================================= *)
(** ** Notions used to state the behaviour of the handlers *)

(** The mapping [GET /api/data] answers: the locations that have a reading,
    in order, each with its reading. *)
Definition dataMapping (container : option Container) : list (string * jsval) :=
  filter (fun entry => truthy (snd entry))
    (map (fun loc => (loc, latestOf container loc)) locations).

(** The instants of the readings that carry a timestamp read as a valid
    Date. *)
Definition instants (newDate : jsval -> option Z) (readings : list jsval)
  : list Z :=
  flat_map
    (fun data =>
       if truthy (prop data "timestamp") then
         match newDate (prop data "timestamp") with
         | Some t => [t]
         | None => []
         end
       else [])
    readings.

(** The update of [latestTimestamp] by one present reading. *)
Definition trackLatest (newDate : jsval -> option Z)
  (latest : option (option Z)) (data : jsval) : option (option Z) :=
  if truthy (prop data "timestamp") then
    let ts := newDate (prop data "timestamp") in
    if match latest with
       | None => true
       | Some d => Date.gt ts d
       end
    then Some ts
    else latest
  else latest.

(** The first reading that carries a timestamp. *)
Definition firstDated (readings : list jsval) : option jsval :=
  find (fun data => truthy (prop data "timestamp")) readings.

Definition isRangeError {A} (r : result A) : bool :=
  match r with
  | Throw (RangeError _) => true
  | _ => false
  end.

(** The name a class of reading goes by in the dashboard. *)
Definition className (cls : safety) : string :=
  match cls with
  | Safe => "safe"
  | Caution => "caution"
  | Unsafe => "unsafe"
  end.

Module Samples.

(** A reading whose [windowEnd] is no date. *)
Definition undated : jsval :=
  Examples.reading "dows-lake" "yesterday" "Safe".

(** The reading [getLatestData] returns for it. *)
Definition undatedReading : jsval :=
  Eval vm_compute in
    match normalizeDoc undated with
    | Ok doc => doc
    | Throw _ => JNull
    end.

Definition undatedStore : Cosmos.store :=
  Cosmos.healthy
    [ undated; Examples.reading "nac" "2025-01-15T10:15:00.000Z" "Safe" ].

(** A reading whose [safetyStatus] is a number. *)
Definition graded : jsval :=
  JObj [ ("location", JStr "nac");
         ("windowEnd", JStr "2025-01-15T10:15:00.000Z");
         ("safetyStatus", JNum 2) ].

Definition gradedStore : Cosmos.store :=
  Cosmos.healthy
    [ Examples.reading "dows-lake" "2025-01-15T10:25:00.000Z" "Safe"; graded ].

(** A reading without ice thickness, after one with. *)
Definition unmeasured : jsval :=
  JObj [ ("location", JStr "dows-lake");
         ("windowEnd", JStr "2025-01-15T10:20:00.000Z");
         ("avgIceThickness", JNull);
         ("safetyStatus", JStr "Safe") ].

Definition chartStore : Cosmos.store :=
  Cosmos.healthy [ Examples.halfHourAgo; unmeasured; Examples.oneHourAgo ].

(** Records of Dow's Lake three hours, ninety minutes and half an hour
    before [Examples.now]. *)
Definition ninetyMinutesAgo : jsval :=
  Examples.reading "dows-lake" "2025-01-15T09:00:00.000Z" "Safe".

Definition windowStore : Cosmos.store :=
  Cosmos.healthy
    [ Examples.halfHourAgo; Examples.threeHoursAgo; ninetyMinutesAgo ].

(** A store whose only record is three hours old and whose history
    queries under the display name fail. *)
Definition staleStore : Cosmos.store :=
  {| Cosmos.documents := [Examples.threeHoursAgo];
     Cosmos.failure := fun q =>
       match q with
       | HistorySince loc _ =>
           if loc =? "Dow's Lake" then Some (Error "Request timed out")
           else None
       | _ => None
       end |}.

(** America/Toronto around the change of 2025-03-09: five hours behind UTC
    before 07:00Z, four hours from then on; a local time before 03:00 of
    that day is read back with the five hours. *)
Definition toronto : Date.zone :=
  {| Date.offsetAt := fun t =>
       if (t <? 1741503600000)%Z then (-18000000)%Z else (-14400000)%Z;
     Date.offsetOfLocal := fun tl =>
       if (tl <? 1741489200000)%Z then (-18000000)%Z else (-14400000)%Z |}.

(** 2025-03-09T07:30:00.000Z: 03:30 in Toronto, half an hour after the
    clocks went forward. *)
Definition dstNow : Z := 1741505400000.

(** A record ninety minutes older than [dstNow]. *)
Definition dstRecord : jsval :=
  Examples.reading "dows-lake" "2025-03-09T06:00:00.000Z" "Safe".

Definition dstStore : Cosmos.store := Cosmos.healthy [dstRecord].

End Samples.

(* ================================================================= *)
(** * Properties *)

(** ** Strings and the normalizer *)

Lemma lower_char_not_upper c : Str.is_upper (Str.lower_char c) = false.
Proof. destruct c as [[] [] [] [] [] [] [] []]; vm_compute; reflexivity. Qed.

Lemma toLowerCase_no_upper s :
  Str.all_chars (fun c => negb (Str.is_upper c)) (Str.toLowerCase s) = true.
Proof.
  induction s as [|c r IH]; simpl; [reflexivity|].
  now rewrite lower_char_not_upper, IH.
Qed.

Lemma remove_apostrophes_clean s :
  Str.all_chars (fun c => negb (Str.is_upper c)) s = true ->
  Str.all_chars (fun c => negb (Str.is_upper c) && negb (Str.is_apostrophe c))
    (Str.remove_apostrophes s) = true.
Proof.
  induction s as [|c r IH]; simpl; [reflexivity|].
  intros H. apply andb_true_iff in H as [Hc Hr].
  destruct (Str.is_apostrophe c) eqn:E; simpl; [now apply IH|].
  now rewrite Hc, E, IH.
Qed.

Lemma replace_space_runs_plain s : forall in_run,
  Str.all_chars (fun c => negb (Str.is_upper c) && negb (Str.is_apostrophe c)) s = true ->
  Str.all_chars plain (Str.replace_space_runs in_run s) = true.
Proof.
  induction s as [|c r IH]; simpl; intros in_run H; [reflexivity|].
  apply andb_true_iff in H as [Hc Hr].
  destruct (Str.is_space c) eqn:E.
  - destruct in_run; simpl; [now apply IH|].
    now rewrite IH.
  - simpl. unfold plain at 1. rewrite Hc, E. simpl. now apply IH.
Qed.

Lemma normalizeLocation_plain s : Str.all_chars plain (normalizeLocation s) = true.
Proof.
  unfold normalizeLocation.
  apply replace_space_runs_plain, remove_apostrophes_clean, toLowerCase_no_upper.
Qed.

Lemma normalizeDoc_string_location raw s :
  truthy raw = true -> prop raw "location" = JStr s ->
  exists rest,
    normalizeDoc raw = Ok (JObj (("location", JStr (normalizeLocation s)) :: rest)).
Proof.
  intros Ht Hl. unfold normalizeDoc. rewrite Ht, Hl. simpl.
  eexists. reflexivity.
Qed.

(** ** The monad *)

Lemma outcome_bind {A B} (m : M A) (k : A -> M B) :
  outcome (bind m k) =
  match outcome m with
  | Ok a => outcome (k a)
  | Throw e => Throw e
  end.
Proof.
  destruct m as [out [a|e]]; simpl; [|reflexivity].
  destruct (k a); reflexivity.
Qed.

Lemma outcome_try_catch {A} (m : M A) (h : exn -> M A) :
  outcome (try_catch m h) =
  match outcome m with
  | Ok a => Ok a
  | Throw e => outcome (h e)
  end.
Proof.
  destruct m as [out [a|e]]; simpl; [reflexivity|].
  destruct (h e); reflexivity.
Qed.

Lemma outcome_lift {A} (r : result A) : outcome (lift r) = r.
Proof. reflexivity. Qed.

Lemma outcome_ret {A} (a : A) : outcome (ret a) = Ok a.
Proof. reflexivity. Qed.

Lemma outcome_say c : outcome (say c) = Ok tt.
Proof. reflexivity. Qed.

Lemma try_catch_unit (m : M unit) (h : exn -> M unit) :
  (forall e, outcome (h e) = Ok tt) -> outcome (try_catch m h) = Ok tt.
Proof.
  intros Hh. rewrite outcome_try_catch.
  destruct (outcome m) as [[]|e]; [reflexivity | apply Hh].
Qed.

Ltac outcomes :=
  repeat (rewrite ?outcome_bind, ?outcome_try_catch, ?outcome_lift,
            ?outcome_ret, ?outcome_say; simpl).

(** ** getLatestData returns *)

(** What one turn of the loop leaves, in terms of the query's answer. *)
Lemma latestAttempt_outcome c locationKey loc :
  outcome (latestAttempt c locationKey loc) =
  match c (LatestByLocation loc) with
  | Ok (first :: _) =>
      match normalizeDoc first with
      | Ok doc => Ok (Some doc)
      | Throw _ => Ok None
      end
  | Ok [] => Ok None
  | Throw _ => Ok None
  end.
Proof.
  unfold latestAttempt. outcomes.
  destruct (c (LatestByLocation loc)) as [[|first rest]|e]; outcomes;
    try reflexivity.
  destruct (normalizeDoc first); reflexivity.
Qed.

Lemma reportAvailable_outcome c : outcome (reportAvailable c) = Ok tt.
Proof.
  unfold reportAvailable. apply try_catch_unit. reflexivity.
Qed.

Lemma latestLoop_nil_outcome c locationKey :
  outcome (latestLoop c locationKey []) = Ok JNull.
Proof.
  simpl. outcomes. rewrite reportAvailable_outcome. reflexivity.
Qed.

Lemma latestLoop_cons_outcome c locationKey loc rest :
  outcome (latestLoop c locationKey (loc :: rest)) =
  match outcome (latestAttempt c locationKey loc) with
  | Ok (Some doc) => Ok doc
  | Ok None => outcome (latestLoop c locationKey rest)
  | Throw e => Throw e
  end.
Proof.
  simpl latestLoop. rewrite outcome_bind.
  destruct (outcome (latestAttempt c locationKey loc)) as [[doc|]|e];
    reflexivity.
Qed.

Lemma latestLoop_returns c locationKey variants :
  exists v, outcome (latestLoop c locationKey variants) = Ok v.
Proof.
  induction variants as [|loc rest IH].
  - eexists. apply latestLoop_nil_outcome.
  - rewrite latestLoop_cons_outcome, latestAttempt_outcome.
    destruct (c (LatestByLocation loc)) as [[|first more]|e]; try exact IH.
    destruct (normalizeDoc first); [eexists; reflexivity | exact IH].
Qed.

Lemma getLatestData_returns container locationKey :
  exists v, outcome (getLatestData container locationKey) = Ok v.
Proof.
  destruct container as [c|]; simpl.
  - apply latestLoop_returns.
  - eexists. reflexivity.
Qed.

Lemma getLatestData_latestOf container loc :
  outcome (getLatestData container loc) = Ok (latestOf container loc).
Proof.
  unfold latestOf.
  destruct (getLatestData_returns container loc) as [v ->]. reflexivity.
Qed.

(** With every variant answering with no record, the loop ends on [null]. *)
Lemma latestLoop_no_records c locationKey variants :
  (forall loc, c (LatestByLocation loc) = Ok []) ->
  outcome (latestLoop c locationKey variants) = Ok JNull.
Proof.
  intros Hc. induction variants as [|loc rest IH].
  - apply latestLoop_nil_outcome.
  - rewrite latestLoop_cons_outcome, latestAttempt_outcome, Hc. exact IH.
Qed.

(** ** Location normalization *)

(** C3, as stated, fails: the padded input [" Dow's   Lake "] does not
    normalize to ["dows-lake"], because its leading and its trailing run of
    white space each become a hyphen. *)
Lemma normalizeLocation_padded_differs :
  normalizeLocation " Dow's   Lake " <> "dows-lake".
Proof. vm_compute. discriminate. Qed.

(** C3 (amended): location normalization lower-cases the raw string, removes
    the apostrophes and replaces every run of white space by one hyphen, so
    that the result holds no upper-case letter, apostrophe or white space;
    ["Dow's Lake"], ["dows-lake"] and ["Dows Lake"] normalize to
    ["dows-lake"], and [" Dow's   Lake "] normalizes to ["-dows-lake-"];
    this is the [location] of the reading [normalizeDoc] builds. *)
Theorem normalizeLocation_canonical :
  (forall s,
      normalizeLocation s
      = Str.replace_space_runs false
          (Str.remove_apostrophes (Str.toLowerCase s)))
  /\ (forall s, Str.all_chars plain (normalizeLocation s) = true)
  /\ normalizeLocation "Dow's Lake" = "dows-lake"
  /\ normalizeLocation "dows-lake" = "dows-lake"
  /\ normalizeLocation "Dows Lake" = "dows-lake"
  /\ normalizeLocation " Dow's   Lake " = "-dows-lake-"
  /\ (forall s fields,
         match normalizeDoc (JObj (("location", JStr s) :: fields)) with
         | Ok doc => prop doc "location" = JStr (normalizeLocation s)
         | Throw _ => False
         end).
Proof.
  repeat split; try reflexivity.
  apply normalizeLocation_plain.
Qed.

(** ** Name variants *)

(** C8, as stated, fails on the empty key: [filter(Boolean)] drops it, so
    the sequence is empty and the key is not its first element. *)
Lemma locationVariants_empty_key :
  hd_error (locationVariants EmptyString) <> Some EmptyString.
Proof. vm_compute. discriminate. Qed.

Lemma truthy_JStr s : s <> EmptyString -> truthy (JStr s) = true.
Proof.
  intros H. simpl. apply negb_true_iff, String.eqb_neq. exact H.
Qed.

Lemma locationVariants_spec key :
  key <> EmptyString -> locationVariants key = Spec.variants key.
Proof.
  intros H. unfold locationVariants, Spec.variants, displayName, Spec.aliasOf.
  cbn [filter]. rewrite (truthy_JStr H).
  destruct (key =? "dows-lake"); [reflexivity|].
  destruct (key =? "fifth-avenue"); [reflexivity|].
  destruct (key =? "nac"); reflexivity.
Qed.

(** C8 (amended): for every key that is not the empty string the variants
    are the key itself followed by its display-name alias when it has one
    (["Dow's Lake"], ["Fifth Avenue"], ["NAC"]); the key comes first, no
    variant is repeated, and a key without alias yields just itself. *)
Theorem locationVariants_resolver (key : string) (Hkey : key <> EmptyString) :
  locationVariants key = Spec.variants key
  /\ hd_error (locationVariants key) = Some key
  /\ NoDup (locationVariants key)
  /\ locationVariants "dows-lake" = ["dows-lake"; "Dow's Lake"]
  /\ locationVariants "fifth-avenue" = ["fifth-avenue"; "Fifth Avenue"]
  /\ locationVariants "nac" = ["nac"; "NAC"]
  /\ (if existsb (String.eqb key) locations then True
      else locationVariants key = [key]).
Proof.
  rewrite (locationVariants_spec Hkey).
  unfold Spec.variants, Spec.aliasOf, locations. cbn [existsb].
  repeat split; try reflexivity.
  - destruct (key =? "dows-lake") eqn:E1;
      [apply String.eqb_eq in E1; subst|
       destruct (key =? "fifth-avenue") eqn:E2;
       [apply String.eqb_eq in E2; subst|
        destruct (key =? "nac") eqn:E3;
        [apply String.eqb_eq in E3; subst|]]].
    all: repeat constructor; simpl; intuition discriminate.
  - destruct (key =? "dows-lake"); [exact I|].
    destruct (key =? "fifth-avenue"); [exact I|].
    destruct (key =? "nac"); [exact I | reflexivity].
Qed.

Lemma locationVariants_resolver_witness :
  locationVariants "nac" = Spec.variants "nac"
  /\ hd_error (locationVariants "nac") = Some "nac"
  /\ NoDup (locationVariants "nac")
  /\ locationVariants "dows-lake" = ["dows-lake"; "Dow's Lake"]
  /\ locationVariants "fifth-avenue" = ["fifth-avenue"; "Fifth Avenue"]
  /\ locationVariants "nac" = ["nac"; "NAC"]
  /\ (if existsb (String.eqb "nac") locations then True
      else locationVariants "nac" = ["nac"]).
Proof.
  apply (@locationVariants_resolver "nac"). discriminate.
Defined.

(** ** The route table *)

(** C6: no route answers [GET /api/health]; the documented liveness
    endpoint is missing and the request ends in the framework's 404. *)
Theorem health_route_missing :
  Router.dispatch ["api"; "health"] = None
  /\ Router.dispatch ["api"; "status"] = Some Router.ApiStatus
  /\ forallb (fun route =>
                negb (Router.matches (fst route) ["api"; "health"]))
       Router.routes = true.
Proof. repeat split. Qed.

(** ** An unconfigured store client *)

(** C1, as stated, fails: with no container the single-location endpoint
    does not answer 500. *)
Lemma unconfigured_latest_not_500 :
  ~ (exists r,
        outcome (dataLocationHandler None "dows-lake") = Ok r
        /\ status r = 500).
Proof.
  intros [r [H1 H2]]. vm_compute in H1. inversion H1; subst r.
  discriminate H2.
Qed.

(** C1 (amended): when the container was never initialized, [getLatestData]
    prints "Container not initialized" on the error console and returns
    [null], the value it returns for no data; [GET /api/data/:location] then
    answers 404 with [{error: "No data for location"}], the very response
    it gives for a configured store without records, and [GET /api/data]
    answers an empty mapping. *)
Theorem unconfigured_store_reads_as_no_data (location : string) :
  getLatestData None location
  = ([console_error "Container not initialized" []], Ok JNull)
  /\ outcome (dataLocationHandler None location)
     = Ok {| status := 404; headers := [];
             body := JObj [("error", JStr "No data for location")] |}
  /\ outcome (dataLocationHandler (Some (Cosmos.run (Cosmos.healthy []))) location)
     = outcome (dataLocationHandler None location)
  /\ outcome (dataHandler None)
     = Ok {| status := 200; headers := [noCache]; body := JObj [] |}.
Proof.
  repeat split.
  unfold dataLocationHandler. rewrite !outcome_bind.
  cbn [getLatestData].
  rewrite latestLoop_no_records by reflexivity.
  reflexivity.
Qed.

(** ** The order of strings *)

Lemma string_compare_lt_trans a : forall b c,
  String.compare a b = Lt -> String.compare b c = Lt -> String.compare a c = Lt.
Proof.
  induction a as [|x a IH]; intros [|y b] [|z c]; simpl;
    try discriminate; try reflexivity.
  unfold Ascii.compare.
  generalize (N_of_ascii x) (N_of_ascii y) (N_of_ascii z). intros n m p.
  destruct (N.compare_spec n m); try discriminate;
    destruct (N.compare_spec m p); try discriminate;
    destruct (N.compare_spec n p); try lia; eauto.
Qed.

Lemma string_leb_iff a b :
  String.leb a b = true <-> String.compare a b = Lt \/ a = b.
Proof.
  unfold String.leb. split.
  - destruct (String.compare a b) eqn:E; intros H; try discriminate.
    + right. now apply String.compare_eq_iff.
    + now left.
  - intros [ -> | -> ]; [reflexivity|].
    assert (H : String.compare b b = Eq).
    { generalize (String.compare_antisym b b).
      destruct (String.compare b b); simpl; congruence. }
    now rewrite H.
Qed.

Lemma string_leb_trans a b c :
  String.leb a b = true -> String.leb b c = true -> String.leb a c = true.
Proof.
  rewrite !string_leb_iff.
  intros [H1 | -> ] [H2 | -> ]; auto.
  left. eapply string_compare_lt_trans; eauto.
Qed.

Lemma string_leb_false a b : String.leb a b = false -> String.leb b a = true.
Proof.
  intros H. destruct (String.leb_total a b) as [H'|H']; congruence.
Qed.

(** ** Sorting in the store *)

Section SortFacts.

Variable le : jsval -> jsval -> bool.

Lemma insert_perm x l : Permutation (Cosmos.insert le x l) (x :: l).
Proof.
  induction l as [|y rest IH]; simpl; [reflexivity|].
  destruct (le x y); [reflexivity|].
  rewrite IH. apply perm_swap.
Qed.

Lemma sort_perm l : Permutation (Cosmos.sort le l) l.
Proof.
  induction l as [|x rest IH]; simpl; [reflexivity|].
  rewrite insert_perm. now constructor.
Qed.

Lemma sort_nil_inv l : Cosmos.sort le l = [] -> l = [].
Proof.
  intros H. apply Permutation_nil. rewrite <- H. apply sort_perm.
Qed.

Hypothesis le_total : forall a b, le a b = false -> le b a = true.

Lemma insert_hdrel a x l :
  le a x = true -> HdRel (fun u v => le u v = true) a l ->
  HdRel (fun u v => le u v = true) a (Cosmos.insert le x l).
Proof.
  intros Hax Hl. destruct l as [|y rest]; simpl; [now constructor|].
  destruct (le x y); constructor; [exact Hax|].
  now inversion Hl.
Qed.

Lemma insert_sorted x l :
  Sorted (fun u v => le u v = true) l ->
  Sorted (fun u v => le u v = true) (Cosmos.insert le x l).
Proof.
  induction 1 as [|y rest Hs IH Hhd]; simpl.
  - repeat constructor.
  - destruct (le x y) eqn:E.
    + constructor; [now constructor | now constructor].
    + constructor; [exact IH|].
      apply insert_hdrel; [now apply le_total | exact Hhd].
Qed.

Lemma sort_sorted l : Sorted (fun u v => le u v = true) (Cosmos.sort le l).
Proof.
  induction l as [|x rest IH]; simpl; [constructor|].
  now apply insert_sorted.
Qed.

End SortFacts.

Lemma ascending_total a b :
  Cosmos.ascending a b = false -> Cosmos.ascending b a = true.
Proof. apply string_leb_false. Qed.

(** The first record of the descending order is the newest one. *)
Lemma sort_descending_head l :
  hd_error (Cosmos.sort Cosmos.descending l) = Spec.newest l.
Proof.
  induction l as [|d rest IH]; simpl; [reflexivity|].
  rewrite <- IH.
  destruct (Cosmos.sort Cosmos.descending rest) as [|m t]; simpl;
    [reflexivity|].
  unfold Cosmos.descending at 1.
  destruct (String.leb (Cosmos.key m) (Cosmos.key d)); reflexivity.
Qed.

Lemma firstn_1_hd {A} (l : list A) :
  firstn 1 l = match hd_error l with Some x => [x] | None => [] end.
Proof. destruct l; reflexivity. Qed.

Lemma eval_latest docs loc :
  Cosmos.eval docs (LatestByLocation loc)
  = match Spec.newest
            (filter (fun d => Cosmos.hasLocation loc d && Cosmos.hasWindowEnd d) docs)
    with
    | Some m => [m]
    | None => []
    end.
Proof.
  unfold Cosmos.eval. now rewrite firstn_1_hd, sort_descending_head.
Qed.

Lemma newest_In l m : Spec.newest l = Some m -> In m l.
Proof.
  revert m. induction l as [|d rest IH]; simpl; [discriminate|].
  intros m. destruct (Spec.newest rest) as [m'|].
  - destruct (String.leb (Cosmos.key m') (Cosmos.key d)); intros [= <-]; auto.
  - intros [= <-]. auto.
Qed.

Lemma newest_max l m :
  Spec.newest l = Some m ->
  forallb (fun d => String.leb (Cosmos.key d) (Cosmos.key m)) l = true.
Proof.
  revert m. induction l as [|d rest IH]; simpl; [reflexivity|].
  intros m. destruct (Spec.newest rest) as [m'|] eqn:E.
  - specialize (IH m' eq_refl).
    destruct (String.leb (Cosmos.key m') (Cosmos.key d)) eqn:L; intros [= <-].
    + apply andb_true_iff. split.
      * apply string_leb_iff. now right.
      * apply forallb_forall. intros x Hx.
        eapply string_leb_trans; [|exact L].
        eapply forallb_forall in IH; eauto.
    + apply andb_true_iff. split; [now apply string_leb_false | exact IH].
  - intros [= <-]. destruct rest; [|simpl in E; destruct (Spec.newest rest); try destruct (String.leb _ _); discriminate].
    simpl. rewrite andb_true_r. apply string_leb_iff. now right.
Qed.

(** A document stored under a location is one [normalizeDoc] accepts. *)
Lemma hasLocation_normalizes loc d :
  Cosmos.hasLocation loc d = true ->
  exists doc, normalizeDoc d = Ok doc /\ truthy doc = true.
Proof.
  unfold Cosmos.hasLocation. intros H.
  destruct d; try (simpl in H; discriminate H).
  unfold normalizeDoc. change (truthy (JObj fields)) with true. cbn [negb].
  destruct (prop (JObj fields) "location"); try discriminate H.
  eexists. split; reflexivity.
Qed.

(** ** The latest-reading fetcher over a store *)

Lemma yields_normalizes s loc m :
  Spec.yields s loc = Some m ->
  Cosmos.hasLocation loc m = true
  /\ exists doc, normalizeDoc m = Ok doc /\ truthy doc = true.
Proof.
  unfold Spec.yields, Spec.recordsOf.
  destruct (Cosmos.failure s (LatestByLocation loc)); [discriminate|].
  intros H. apply newest_In, filter_In in H as [_ H].
  apply andb_true_iff in H as [H _].
  split; [exact H | eapply hasLocation_normalizes; eauto].
Qed.

Lemma latestAttempt_cosmos s locationKey loc :
  outcome (latestAttempt (Cosmos.run s) locationKey loc) =
  match Spec.yields s loc with
  | Some m =>
      match normalizeDoc m with
      | Ok doc => Ok (Some doc)
      | Throw _ => Ok None
      end
  | None => Ok None
  end.
Proof.
  rewrite latestAttempt_outcome. unfold Cosmos.run, Spec.yields, Spec.recordsOf.
  destruct (Cosmos.failure s (LatestByLocation loc)); [reflexivity|].
  rewrite eval_latest. now destruct (Spec.newest _).
Qed.

Lemma latestLoop_cosmos s locationKey variants :
  outcome (latestLoop (Cosmos.run s) locationKey variants) =
  match Spec.firstYield s variants with
  | Some d => normalizeDoc d
  | None => Ok JNull
  end.
Proof.
  induction variants as [|loc rest IH].
  - apply latestLoop_nil_outcome.
  - rewrite latestLoop_cons_outcome, latestAttempt_cosmos. simpl.
    destruct (Spec.yields s loc) as [m|] eqn:E; [|exact IH].
    destruct (yields_normalizes _ _ E) as [_ [doc [-> _]]]. reflexivity.
Qed.

(** C5: over any store and for any key, the latest-reading fetcher returns
    the normalized newest record of the first variant, in resolver order,
    that yields a record, a variant whose query throws counting as one
    without records; what later variants hold is not looked at; the fetch
    returns [null] when no variant yields a record, and never throws.  The
    record a variant yields is stored under that variant and no record
    under it has a greater [windowEnd]. *)
Theorem getLatestData_first_variant (s : Cosmos.store) (locationKey : string) :
  outcome (getLatestData (Some (Cosmos.run s)) locationKey)
  = match Spec.firstYield s (locationVariants locationKey) with
    | Some d => normalizeDoc d
    | None => Ok JNull
    end
  /\ (exists v, outcome (getLatestData (Some (Cosmos.run s)) locationKey) = Ok v)
  /\ (forall loc,
         match Spec.yields s loc with
         | Some m =>
             Cosmos.hasLocation loc m = true
             /\ forallb (fun d => String.leb (Cosmos.key d) (Cosmos.key m))
                  (Spec.recordsOf s loc) = true
         | None =>
             match Cosmos.failure s (LatestByLocation loc) with
             | Some _ => True
             | None => Spec.recordsOf s loc = []
             end
         end).
Proof.
  split; [apply latestLoop_cosmos|].
  split; [apply getLatestData_returns|].
  intros loc. destruct (Spec.yields s loc) as [m|] eqn:E.
  - split; [eapply yields_normalizes; eauto|].
    unfold Spec.yields in E.
    destruct (Cosmos.failure s (LatestByLocation loc)); [discriminate|].
    now apply newest_max.
  - unfold Spec.yields in E.
    destruct (Cosmos.failure s (LatestByLocation loc)); [exact I|].
    destruct (Spec.recordsOf s loc) as [|d rest]; [reflexivity|].
    simpl in E. destruct (Spec.newest rest);
      [destruct (String.leb _ _)|]; discriminate.
Qed.

(** ** The history fetcher over a store *)

Lemma map_result_all {A B} (f : A -> result B) (l : list A) :
  Forall (fun a => exists b, f a = Ok b) l ->
  exists bs, map_result f l = Ok bs.
Proof.
  induction 1 as [|a rest [b Hb] _ [bs Hbs]]; simpl.
  - eexists. reflexivity.
  - rewrite Hb, Hbs. eexists. reflexivity.
Qed.

Lemma historyAttempt_outcome c cutoff loc :
  outcome (historyAttempt c cutoff loc) =
  match cutoff with
  | None => Ok None
  | Some t =>
      match c (HistorySince loc (Date.format t)) with
      | Ok (r :: rest) => Ok (Some (r :: rest))
      | Ok [] => Ok None
      | Throw _ => Ok None
      end
  end.
Proof.
  unfold historyAttempt. outcomes.
  destruct cutoff as [t|]; simpl; [|reflexivity].
  destruct (c (HistorySince loc (Date.format t))) as [[|r rest]|e];
    reflexivity.
Qed.

Lemma historyLoop_cons_outcome c cutoff loc rest :
  outcome (historyLoop c cutoff (loc :: rest)) =
  match outcome (historyAttempt c cutoff loc) with
  | Ok (Some resources) => Ok resources
  | Ok None => outcome (historyLoop c cutoff rest)
  | Throw e => Throw e
  end.
Proof.
  simpl historyLoop. rewrite outcome_bind.
  destruct (outcome (historyAttempt c cutoff loc)) as [[r|]|e]; reflexivity.
Qed.

Lemma historyLoop_invalid_cutoff c variants :
  outcome (historyLoop c None variants) = Ok [].
Proof.
  induction variants as [|loc rest IH]; [reflexivity|].
  now rewrite historyLoop_cons_outcome, historyAttempt_outcome.
Qed.

Lemma historyLoop_cosmos s t variants :
  exists rs,
    outcome (historyLoop (Cosmos.run s) (Some t) variants) = Ok rs
    /\ Sorted (fun a b => Cosmos.ascending a b = true) rs
    /\ Permutation rs (Spec.firstInWindow s (Date.format t) variants).
Proof.
  induction variants as [|loc rest IH].
  - exists []. repeat split; constructor.
  - rewrite historyLoop_cons_outcome, historyAttempt_outcome.
    simpl Spec.firstInWindow. unfold Cosmos.run, Spec.inWindow.
    destruct (Cosmos.failure s (HistorySince loc (Date.format t)));
      [exact IH|].
    simpl Cosmos.eval.
    set (found := filter _ (Cosmos.documents s)).
    destruct (Cosmos.sort Cosmos.ascending found) as [|r more] eqn:E.
    + apply sort_nil_inv in E. rewrite E. exact IH.
    + exists (r :: more). split; [reflexivity|].
      rewrite <- E. split.
      * apply sort_sorted, ascending_total.
      * destruct found as [|d ds] eqn:F; [discriminate E|].
        apply sort_perm.
Qed.

Lemma firstInWindow_located s cut variants d :
  In d (Spec.firstInWindow s cut variants) ->
  exists loc, Cosmos.hasLocation loc d = true /\ Cosmos.since cut d = true.
Proof.
  induction variants as [|loc rest IH]; simpl; [tauto|].
  destruct (Spec.inWindow s cut loc) as [|x l] eqn:E; [exact IH|].
  intros H. rewrite <- E in H. unfold Spec.inWindow in H.
  destruct (Cosmos.failure s (HistorySince loc cut)); [destruct H|].
  apply filter_In in H as [_ H]. apply andb_true_iff in H as [H1 H2].
  now exists loc.
Qed.

(** The cutoff of the history handler: the local time moved back by the
    window and read back as an instant. *)
Lemma minusHours_local z t hours :
  Date.minusHours z t hours
  = Date.timeClip (Date.toUTC z (Date.localTime z t - hours * Date.msPerHour)).
Proof.
  unfold Date.minusHours, Date.setHours, Date.getHours.
  do 2 f_equal. generalize (Date.localTime z t). intros tl.
  unfold Date.msPerDay, Date.msPerHour.
  Z.div_mod_to_equations. lia.
Qed.

(** C7: the history handler reads its window with [parseInt(hours) || 1]
    (1 when the parameter is absent or not numeric, 2 for "2") and answers
    200 with the normalized records of the first name variant that has any
    record with [windowEnd >= cutoff], those records exactly, in ascending
    order of [windowEnd], nothing of a later variant being merged in.  The
    cutoff is made by [setHours] on the local wall clock: it is now minus
    the window plus the difference between the zone's offset at now and
    the offset the local cutoff is read back with; in UTC it is now minus
    the window, and there [hours=2] leaves out a record three hours old and
    returns records ninety and thirty minutes old, the older first.  Half
    an hour after the clocks went forward in Toronto the cutoff of
    [hours=2] is one hour back only, and a record ninety minutes old is
    left out. *)
Theorem history_window (s : Cosmos.store) (zone : Date.zone) (now : Z)
  (location : string) (hoursParam : option string) :
  lookbackHours None = 1%Z
  /\ lookbackHours (Some "abc") = 1%Z
  /\ lookbackHours (Some "2") = 2%Z
  /\ (forall text,
         lookbackHours (Some text)
         = match ParseInt.parseInt text with
           | Some n => if (n =? 0)%Z then 1%Z else n
           | None => 1%Z
           end)
  /\ Date.minusHours zone now (lookbackHours hoursParam)
     = Date.timeClip
         (now - lookbackHours hoursParam * Date.msPerHour
          + (Date.offsetAt zone now
             - Date.offsetOfLocal zone
                 (Date.localTime zone now
                  - lookbackHours hoursParam * Date.msPerHour)))%Z
  /\ Date.minusHours Date.utc now (lookbackHours hoursParam)
     = Date.timeClip (now - lookbackHours hoursParam * Date.msPerHour)
  /\ (exists rs docs,
         outcome (historyHandler (Some (Cosmos.run s)) zone now location
                    hoursParam)
         = Ok {| status := 200; headers := [noCache]; body := JArr docs |}
         /\ map_result normalizeDoc rs = Ok docs
         /\ Sorted (fun a b => Cosmos.ascending a b = true) rs
         /\ match Date.minusHours zone now (lookbackHours hoursParam) with
            | Some cutoff =>
                Permutation rs
                  (Spec.firstInWindow s (Date.format cutoff)
                     (locationVariants location))
            | None => rs = []
            end)
  /\ (Date.minusHours Date.utc Examples.now (lookbackHours (Some "2"))
      = Some (Examples.now - 2 * Date.msPerHour)%Z
      /\ Date.format (Examples.now - 2 * Date.msPerHour) = "2025-01-15T08:30:00.000Z"
      /\ outcome (historyHandler (Some (Cosmos.run Samples.windowStore))
                    Date.utc Examples.now "dows-lake" (Some "2"))
         = match map_result normalizeDoc
                   [Samples.ninetyMinutesAgo; Examples.halfHourAgo] with
           | Ok docs =>
               Ok {| status := 200; headers := [noCache]; body := JArr docs |}
           | Throw e => Throw e
           end
      /\ outcome (historyHandler (Some (Cosmos.run Samples.windowStore))
                    Date.utc Examples.now "dows-lake" (Some "abc"))
         = match map_result normalizeDoc [Examples.halfHourAgo] with
           | Ok docs =>
               Ok {| status := 200; headers := [noCache]; body := JArr docs |}
           | Throw e => Throw e
           end)
  /\ (Date.minusHours Samples.toronto Samples.dstNow (lookbackHours (Some "2"))
      = Some (Samples.dstNow - 1 * Date.msPerHour)%Z
      /\ Date.format (Samples.dstNow - 2 * Date.msPerHour)
         = "2025-03-09T05:30:00.000Z"
      /\ Cosmos.since "2025-03-09T05:30:00.000Z" Samples.dstRecord = true
      /\ outcome (historyHandler (Some (Cosmos.run Samples.dstStore))
                    Samples.toronto Samples.dstNow "dows-lake" (Some "2"))
         = Ok {| status := 200; headers := [noCache]; body := JArr [] |}).
Proof.
  split; [reflexivity|]. split; [reflexivity|]. split; [reflexivity|].
  split; [reflexivity|].
  split.
  { rewrite minusHours_local. unfold Date.toUTC, Date.localTime. f_equal. lia. }
  split.
  { rewrite minusHours_local. unfold Date.toUTC, Date.localTime. cbn.
    f_equal. lia. }
  split; [|split; vm_compute; repeat split].
  unfold historyHandler.
  destruct (Date.minusHours zone now (lookbackHours hoursParam)) as [t|].
  - destruct (historyLoop_cosmos s t (locationVariants location))
      as [rs [Hrs [Hsorted Hperm]]].
    assert (Hall : Forall (fun d => exists doc, normalizeDoc d = Ok doc) rs).
    { apply Forall_forall. intros d Hd.
      eapply Permutation_in in Hd; [|exact Hperm].
      apply firstInWindow_located in Hd as [loc [Hloc _]].
      destruct (hasLocation_normalizes _ _ Hloc) as [doc [Hdoc _]]. eauto. }
    destruct (map_result_all _ Hall) as [docs Hdocs].
    exists rs, docs. rewrite outcome_bind, Hrs. cbv beta iota.
    rewrite outcome_bind, outcome_lift, Hdocs.
    repeat split; assumption.
  - exists [], []. rewrite outcome_bind, historyLoop_invalid_cutoff.
    repeat split. constructor.
Qed.

(** ** History without a store *)

(** C4, as stated, fails: with no container the history endpoint does not
    answer an empty array. *)
Lemma unconfigured_history_not_empty :
  ~ (exists r,
        outcome (historyHandler None Date.utc Examples.now "dows-lake" None)
        = Ok r
        /\ body r = JArr []).
Proof.
  intros [r [H1 H2]]. vm_compute in H1. inversion H1; subst r.
  discriminate H2.
Qed.

Lemma historyLoop_nothing c cutoff variants :
  (forall loc cut,
      In loc variants -> Date.toISOString cutoff = Ok cut ->
      match c (HistorySince loc cut) with Ok l => l = [] | Throw _ => True end) ->
  outcome (historyLoop c cutoff variants) = Ok [].
Proof.
  intros Hc. induction variants as [|loc rest IH]; [reflexivity|].
  rewrite historyLoop_cons_outcome, historyAttempt_outcome.
  assert (Hrest : outcome (historyLoop c cutoff rest) = Ok []).
  { apply IH. intros loc' cut Hin. apply Hc. now right. }
  destruct cutoff as [t|]; [|exact Hrest].
  specialize (Hc loc (Date.format t) (or_introl eq_refl) eq_refl).
  destruct (c (HistorySince loc (Date.format t))) as [[|r more]|e];
    [exact Hrest | discriminate Hc | exact Hrest].
Qed.

(** C4 (amended): for every history request to a configured store client,
    when each query the handler sends, one per name variant of the
    location with the cutoff of the request, finds no record or fails, the
    endpoint answers 200 with an empty array, whatever else the store
    holds; when the store client was never initialized it answers 500 with
    [{error: "Container not initialized"}]. *)
Theorem history_degrades (c : Container) (zone : Date.zone) (now : Z)
  (location : string) (hoursParam : option string)
  (Hnothing :
     forall loc cut,
       In loc (locationVariants location) ->
       Date.toISOString (Date.minusHours zone now (lookbackHours hoursParam))
       = Ok cut ->
       match c (HistorySince loc cut) with
       | Ok l => l = []
       | Throw _ => True
       end) :
  outcome (historyHandler (Some c) zone now location hoursParam)
  = Ok {| status := 200; headers := [noCache]; body := JArr [] |}
  /\ outcome (historyHandler None zone now location hoursParam)
     = Ok {| status := 500; headers := [noCache];
             body := JObj [("error", JStr "Container not initialized")] |}.
Proof.
  split; [|reflexivity].
  unfold historyHandler. rewrite outcome_bind.
  now rewrite (historyLoop_nothing _ _ _ Hnothing).
Qed.

Lemma history_degrades_witness :
  Cosmos.run Samples.staleStore (LatestByLocation "dows-lake")
  = Ok [Examples.threeHoursAgo]
  /\ Cosmos.run Samples.staleStore
       (HistorySince "dows-lake" "2025-01-15T09:30:00.000Z") = Ok []
  /\ Cosmos.run Samples.staleStore
       (HistorySince "Dow's Lake" "2025-01-15T09:30:00.000Z")
     = Throw (Error "Request timed out")
  /\ outcome (historyHandler (Some (Cosmos.run Samples.staleStore)) Date.utc
                Examples.now "dows-lake" (Some "1"))
     = Ok {| status := 200; headers := [noCache]; body := JArr [] |}
  /\ outcome (historyHandler None Date.utc Examples.now "dows-lake" (Some "1"))
     = Ok {| status := 500; headers := [noCache];
             body := JObj [("error", JStr "Container not initialized")] |}.
Proof.
  split; [vm_compute; reflexivity|].
  split; [vm_compute; reflexivity|].
  split; [vm_compute; reflexivity|].
  apply (@history_degrades (Cosmos.run Samples.staleStore) Date.utc
           Examples.now "dows-lake" (Some "1")).
  intros loc cut Hin Hcut.
  vm_compute in Hcut. injection Hcut as <-.
  vm_compute in Hin.
  destruct Hin as [<-|[<-|[]]]; vm_compute; trivial.
Defined.

(** ** Records without a string location *)

Lemma normalizeDoc_cases raw :
  match normalizeDoc raw with
  | Ok doc =>
      if truthy raw then hasStringLocation raw = true /\ truthy doc = true
      else doc = JNull
  | Throw e =>
      truthy raw = true /\ hasStringLocation raw = false
      /\ isTypeError (@Throw jsval e) = true
  end.
Proof.
  unfold normalizeDoc, hasStringLocation.
  destruct (truthy raw); simpl; [|reflexivity].
  destruct (prop raw "location"); simpl; auto.
Qed.

Lemma normalizeDoc_rejects raw :
  truthy raw = true -> hasStringLocation raw = false ->
  exists msg, normalizeDoc raw = Throw (TypeError msg).
Proof.
  intros Ht Hl. generalize (normalizeDoc_cases raw).
  destruct (normalizeDoc raw) as [doc|e].
  - rewrite Ht, Hl. intros [H _]. discriminate H.
  - intros [_ [_ H]]. destruct e; try discriminate H. eauto.
Qed.

Lemma map_result_normalizeDoc_rejects bad l :
  In bad l -> isTypeError (normalizeDoc bad) = true ->
  isTypeError (map_result normalizeDoc l) = true.
Proof.
  intros Hin Hbad. induction l as [|a rest IH]; [destruct Hin|].
  simpl. generalize (normalizeDoc_cases a).
  destruct (normalizeDoc a) as [doc|e] eqn:E.
  - intros _. destruct Hin as [->|Hin].
    + rewrite E in Hbad. discriminate Hbad.
    + specialize (IH Hin).
      destruct (map_result normalizeDoc rest); [discriminate IH | exact IH].
  - intros [_ [_ H]]. exact H.
Qed.

(** C10: [normalizeDoc] returns [null] for a falsy record, a reading for a
    truthy record whose [location] is a string, and throws a TypeError for
    any other record.  In [getLatestData] the throw happens inside the
    variant's [try]: it is printed as a query error and the loop goes on
    with the next variant.  The history handler maps [normalizeDoc] over
    the result outside any [try]: one such record among the resources makes
    the whole request throw. *)
Theorem normalizeDoc_partial (c : Container) (locationKey loc : string)
  (rest : list string) (bad : jsval) (more : list jsval)
  (zone : Date.zone) (now : Z) (hoursParam : option string) (location : string)
  (resources : list jsval)
  (Hbad : truthy bad = true)
  (Hloc : hasStringLocation bad = false)
  (Hlatest : c (LatestByLocation loc) = Ok (bad :: more))
  (Hkey : location <> EmptyString)
  (Hcut : Date.minusHours zone now (lookbackHours hoursParam) <> None)
  (Hhistory : forall cut, c (HistorySince location cut) = Ok resources)
  (Hin : In bad resources) :
  (forall raw,
      match normalizeDoc raw with
      | Ok doc =>
          if truthy raw then hasStringLocation raw = true /\ truthy doc = true
          else doc = JNull
      | Throw e =>
          truthy raw = true /\ hasStringLocation raw = false
          /\ isTypeError (@Throw jsval e) = true
      end)
  /\ isTypeError (normalizeDoc bad) = true
  /\ (exists msg,
         latestAttempt c locationKey loc
         = ([ console_log ("Found data for location: " ++ loc ++
                           " (searched as: " ++ locationKey ++ ")") [];
              console_error ("Error querying location " ++ loc ++ ":")
                [JStr msg] ],
            Ok None))
  /\ outcome (latestLoop c locationKey (loc :: rest))
     = outcome (latestLoop c locationKey rest)
  /\ isTypeError (outcome (historyHandler (Some c) zone now location hoursParam))
     = true.
Proof.
  destruct (normalizeDoc_rejects _ Hbad Hloc) as [msg Hmsg].
  split; [exact normalizeDoc_cases|].
  split; [now rewrite Hmsg|].
  split.
  { exists msg. unfold latestAttempt. rewrite Hlatest. simpl.
    rewrite Hmsg. reflexivity. }
  split.
  { rewrite latestLoop_cons_outcome, latestAttempt_outcome, Hlatest, Hmsg.
    reflexivity. }
  unfold historyHandler, locationVariants. cbn [filter].
  rewrite (truthy_JStr Hkey).
  destruct (Date.minusHours zone now (lookbackHours hoursParam)) as [t|];
    [|contradiction].
  assert (Hloop : forall others,
             outcome (historyLoop c (Some t) (location :: others)) = Ok resources).
  { intros others.
    rewrite historyLoop_cons_outcome, historyAttempt_outcome, Hhistory.
    destruct resources; [destruct Hin | reflexivity]. }
  cbn [strings]. rewrite outcome_bind, Hloop. cbv beta iota.
  rewrite outcome_bind, outcome_lift.
  assert (H := map_result_normalizeDoc_rejects _ _ Hin
                 ltac:(now rewrite Hmsg)).
  destruct (map_result normalizeDoc resources) as [docs|e];
    [discriminate H | exact H].
Qed.

Lemma normalizeDoc_partial_witness :
  truthy Examples.unlocated = true
  /\ hasStringLocation Examples.unlocated = false
  /\ isTypeError (normalizeDoc Examples.unlocated) = true
  /\ outcome (latestLoop Examples.strayClient "nac" ["nac"; "NAC"])
     = outcome (latestLoop Examples.strayClient "nac" ["NAC"])
  /\ isTypeError
       (outcome (historyHandler (Some Examples.strayClient) Date.utc Examples.now
                   "nac" None)) = true.
Proof.
  split; [reflexivity|]. split; [reflexivity|].
  pose proof
    (@normalizeDoc_partial Examples.strayClient "nac" "nac" ["NAC"]
       Examples.unlocated [] Date.utc Examples.now None "nac"
       [Examples.reading "nac" "2025-01-15T10:15:00.000Z" "Safe";
        Examples.unlocated]
       eq_refl eq_refl eq_refl
       ltac:(discriminate) ltac:(discriminate)
       (fun cut => eq_refl)
       (or_intror (or_introl eq_refl))) as H.
  destruct H as [_ [H2 [_ [H4 H5]]]].
  split; [exact H2|]. split; [exact H4 | exact H5].
Defined.

(** ** The status aggregator *)

Lemma statusLoop_cons_outcome container newDate loc rest t :
  outcome (statusLoop container newDate (loc :: rest) t) =
  if truthy (latestOf container loc) then
    match tallyReading newDate loc (latestOf container loc) t with
    | Ok t' => outcome (statusLoop container newDate rest t')
    | Throw e => Throw e
    end
  else outcome (statusLoop container newDate rest t).
Proof.
  cbn [statusLoop]. rewrite outcome_bind, getLatestData_latestOf.
  destruct (truthy (latestOf container loc)); [|reflexivity].
  now rewrite outcome_bind, outcome_lift.
Qed.

Lemma tallyReading_counts newDate loc data t t' :
  tallyReading newDate loc data t = Ok t' ->
  t_total t' = S (t_total t)
  /\ t_safe t' + t_caution t' + t_unsafe t'
     = S (t_safe t + t_caution t + t_unsafe t).
Proof.
  unfold tallyReading.
  destruct (call_toLowerCase _ _) as [status|e]; [|discriminate].
  intros [= <-].
  destruct (classify status);
    destruct (truthy (prop data "timestamp")); cbn [count t_latestTimestamp];
    try destruct (match t_latestTimestamp t with
                  | Some latest => _ | None => _ end);
    simpl; lia.
Qed.

Lemma statusLoop_counts container newDate locs : forall t t',
  outcome (statusLoop container newDate locs t) = Ok t' ->
  t_safe t' + t_caution t' + t_unsafe t' + t_total t
  = t_safe t + t_caution t + t_unsafe t + t_total t'.
Proof.
  induction locs as [|loc rest IH]; intros t t'.
  - intros [= <-]. reflexivity.
  - rewrite statusLoop_cons_outcome.
    destruct (truthy (latestOf container loc)); [|apply IH].
    destruct (tallyReading newDate loc (latestOf container loc) t)
      as [t1|e] eqn:E; [|discriminate].
    intros H. apply IH in H. apply tallyReading_counts in E. lia.
Qed.

Lemma deriveSystemStatus_priority total safe caution unsafe :
  deriveSystemStatus total safe caution unsafe
  = Spec.priority total safe caution unsafe.
Proof.
  destruct total, unsafe, caution; reflexivity.
Qed.

Lemma deriveSystemStatus_known total safe caution unsafe :
  safe + caution + unsafe = total ->
  In (deriveSystemStatus total safe caution unsafe)
    ["No Data"; "Unsafe"; "Caution"; "Safe"].
Proof.
  intros H. rewrite deriveSystemStatus_priority.
  destruct total; [simpl; auto|].
  destruct unsafe; [|simpl; auto].
  destruct caution; [|simpl; auto].
  cbn [Spec.priority].
  replace safe with (S total) by lia. rewrite Nat.eqb_refl. simpl. auto.
Qed.

Lemma statusHandler_body container newDate r :
  outcome (statusHandler container newDate) = Ok r ->
  exists t,
    outcome (statusLoop container newDate locations tally0) = Ok t
    /\ status r = 200
    /\ systemStatus (body r)
       = deriveSystemStatus (t_total t) (t_safe t) (t_caution t) (t_unsafe t)
    /\ totalLocations (body r) = t_total t
    /\ safeLocations (body r) = t_safe t
    /\ cautionLocations (body r) = t_caution t
    /\ unsafeLocations (body r) = t_unsafe t.
Proof.
  unfold statusHandler. rewrite outcome_bind.
  destruct (outcome (statusLoop container newDate locations tally0))
    as [t|e]; [|discriminate].
  rewrite outcome_bind, outcome_lift.
  destruct (match t_latestTimestamp t with Some d => _ | None => _ end)
    as [lastUpdate|e]; [|discriminate].
  intros [= <-]. exists t. repeat split.
Qed.

(** C9: in every response of [/api/status] the safe, caution and unsafe
    counts add up to the total, and the system status is one of "No Data",
    "Unsafe", "Caution" and "Safe", never "Unknown". *)
Theorem status_counts_add_up (container : option Container)
  (newDate : jsval -> option Z) (r : response StatusSummary)
  (Hresponse : outcome (statusHandler container newDate) = Ok r) :
  safeLocations (body r) + cautionLocations (body r) + unsafeLocations (body r)
  = totalLocations (body r)
  /\ In (systemStatus (body r)) ["No Data"; "Unsafe"; "Caution"; "Safe"]
  /\ systemStatus (body r) <> "Unknown".
Proof.
  apply statusHandler_body in Hresponse
    as [t [Hloop [_ [Hsys [Htot [Hsafe [Hcau Huns]]]]]]].
  apply statusLoop_counts in Hloop. simpl in Hloop.
  assert (Hsum : t_safe t + t_caution t + t_unsafe t = t_total t) by lia.
  rewrite Hsys, Htot, Hsafe, Hcau, Huns.
  split; [exact Hsum|].
  pose proof (@deriveSystemStatus_known _ _ _ _ Hsum) as Hin.
  split; [exact Hin|].
  intros Heq. rewrite Heq in Hin. simpl in Hin.
  repeat (destruct Hin as [Hin|Hin]; [discriminate Hin|]). exact Hin.
Qed.

Lemma status_counts_add_up_witness :
  exists r,
    outcome (statusHandler (Some (Cosmos.run Examples.warningStore))
               Examples.newDate) = Ok r
    /\ safeLocations (body r) + cautionLocations (body r)
       + unsafeLocations (body r) = totalLocations (body r)
    /\ In (systemStatus (body r)) ["No Data"; "Unsafe"; "Caution"; "Safe"]
    /\ systemStatus (body r) <> "Unknown".
Proof.
  eexists. split; [vm_compute; reflexivity|].
  apply (@status_counts_add_up (Some (Cosmos.run Examples.warningStore))
           Examples.newDate).
  vm_compute. reflexivity.
Defined.

(** The status the handler lower-cases is classified as the specification
    words it. *)
Lemma classify_safetyClass data :
  statusTyped data = true ->
  exists status,
    call_toLowerCase statusExpr
      (js_or (prop data "safetyStatus") (JStr EmptyString)) = Ok status
    /\ classify status = Spec.safetyClass data.
Proof.
  unfold statusTyped, Spec.safetyClass, js_or.
  destruct (prop data "safetyStatus") as [| |b|n|s|l|l] eqn:E; intros H;
    try (exists EmptyString; split; reflexivity);
    try (apply negb_true_iff in H; rewrite H;
         exists EmptyString; split; reflexivity);
    try discriminate H.
  destruct (truthy (JStr s)) eqn:T.
  - exists (Str.toLowerCase s). split; reflexivity.
  - simpl in T. apply negb_false_iff, String.eqb_eq in T. subst s.
    exists EmptyString. split; reflexivity.
Qed.

Lemma tallyReading_typed newDate loc data t :
  statusTyped data = true -> datable newDate data = true -> settled t ->
  exists t',
    tallyReading newDate loc data t = Ok t'
    /\ settled t'
    /\ t_total t' = S (t_total t)
    /\ t_safe t' = t_safe t + Spec.countClass Safe [data]
    /\ t_caution t' = t_caution t + Spec.countClass Caution [data]
    /\ t_unsafe t' = t_unsafe t + Spec.countClass Unsafe [data].
Proof.
  intros Htyped Hdate Hset.
  destruct (classify_safetyClass _ Htyped) as [status [Hcall Hcls]].
  unfold tallyReading. rewrite Hcall, Hcls.
  unfold Spec.countClass, Spec.isClass, datable, settled in *.
  cbn [filter].
  eexists. split; [reflexivity|].
  destruct (Spec.safetyClass data);
    destruct (truthy (prop data "timestamp")); cbn [count t_latestTimestamp];
    try destruct (newDate (prop data "timestamp")); try discriminate Hdate;
    try destruct (match t_latestTimestamp t with
                  | Some latest => _ | None => _ end);
    simpl; repeat split; try lia; try exact Hset; try discriminate.
Qed.

Lemma countClass_cons cls d l :
  Spec.countClass cls (d :: l) = Spec.countClass cls [d] + Spec.countClass cls l.
Proof.
  unfold Spec.countClass. cbn [filter].
  destruct (Spec.isClass cls d); reflexivity.
Qed.

Lemma statusLoop_typed container newDate locs : forall t,
  forallb statusTyped (filter truthy (map (latestOf container) locs)) = true ->
  forallb (datable newDate) (filter truthy (map (latestOf container) locs)) = true ->
  settled t ->
  exists t',
    outcome (statusLoop container newDate locs t) = Ok t'
    /\ settled t'
    /\ t_total t'
       = t_total t + List.length (filter truthy (map (latestOf container) locs))
    /\ t_safe t'
       = t_safe t
         + Spec.countClass Safe (filter truthy (map (latestOf container) locs))
    /\ t_caution t'
       = t_caution t
         + Spec.countClass Caution (filter truthy (map (latestOf container) locs))
    /\ t_unsafe t'
       = t_unsafe t
         + Spec.countClass Unsafe (filter truthy (map (latestOf container) locs)).
Proof.
  induction locs as [|loc rest IH]; intros t Htyped Hdates Hset.
  - exists t. unfold Spec.countClass. cbn [map filter List.length].
    rewrite !Nat.add_0_r. repeat split. exact Hset.
  - rewrite statusLoop_cons_outcome. cbn [map filter] in Htyped, Hdates |- *.
    destruct (truthy (latestOf container loc));
      [|exact (IH t Htyped Hdates Hset)].
    cbn [forallb] in Htyped, Hdates.
    apply andb_true_iff in Htyped as [Ht1 Ht2].
    apply andb_true_iff in Hdates as [Hd1 Hd2].
    destruct (@tallyReading_typed newDate loc _ t Ht1 Hd1 Hset)
      as [t1 [-> [Hset1 [Htot [Hsafe [Hcau Huns]]]]]].
    destruct (IH t1 Ht2 Hd2 Hset1)
      as [t' [Hloop [Hset' [Htot' [Hsafe' [Hcau' Huns']]]]]].
    exists t'. split; [exact Hloop|]. split; [exact Hset'|].
    set (present := filter truthy (map (latestOf container) rest)) in *.
    rewrite (countClass_cons Safe (latestOf container loc) present),
      (countClass_cons Caution (latestOf container loc) present),
      (countClass_cons Unsafe (latestOf container loc) present).
    cbn [List.length]. split; [lia|]. split; [lia|]. split; lia.
Qed.

(** C2: when the latest readings of the three locations carry a status
    that is a string or absent, and timestamps that are dates, the status
    handler answers 200; the total is the number of locations with a
    reading; a reading counts as safe when its status is "safe" whatever
    the case of its letters, as caution when it is "caution" likewise, and
    as unsafe on any other or absent status; the system status follows by
    strict priority: "No Data" for no reading, else "Unsafe" for any unsafe
    reading, else "Caution" for any caution reading, else "Safe". *)
Theorem status_aggregation (container : option Container)
  (newDate : jsval -> option Z)
  (Htyped : forallb statusTyped (presentReadings container) = true)
  (Hdates : forallb (datable newDate) (presentReadings container) = true) :
  exists r,
    outcome (statusHandler container newDate) = Ok r
    /\ status r = 200
    /\ totalLocations (body r) = List.length (presentReadings container)
    /\ safeLocations (body r)
       = Spec.countClass Safe (presentReadings container)
    /\ cautionLocations (body r)
       = Spec.countClass Caution (presentReadings container)
    /\ unsafeLocations (body r)
       = Spec.countClass Unsafe (presentReadings container)
    /\ systemStatus (body r)
       = Spec.priority (List.length (presentReadings container))
           (Spec.countClass Safe (presentReadings container))
           (Spec.countClass Caution (presentReadings container))
           (Spec.countClass Unsafe (presentReadings container)).
Proof.
  unfold presentReadings in *.
  destruct (@statusLoop_typed container newDate locations tally0 Htyped Hdates)
    as [t [Hloop [Hset [Htot [Hsafe [Hcau Huns]]]]]];
    [discriminate|].
  cbn [tally0 t_total t_safe t_caution t_unsafe Nat.add] in *.
  unfold statusHandler. rewrite outcome_bind, Hloop. cbv beta iota.
  rewrite outcome_bind, outcome_lift.
  destruct (t_latestTimestamp t) as [[ms|]|] eqn:E;
    [| exfalso; apply Hset; exact E |];
    (eexists; split; [reflexivity|]; cbn [status body systemStatus
       totalLocations safeLocations cautionLocations unsafeLocations];
     rewrite deriveSystemStatus_priority, Htot, Hsafe, Hcau, Huns;
     repeat split).
Qed.

Lemma status_aggregation_witness :
  forallb statusTyped (presentReadings (Some (Cosmos.run Examples.mixedStore)))
  = true
  /\ forallb (datable Examples.newDate)
       (presentReadings (Some (Cosmos.run Examples.mixedStore))) = true
  /\ exists r,
      outcome (statusHandler (Some (Cosmos.run Examples.mixedStore))
                 Examples.newDate) = Ok r
      /\ status r = 200
      /\ totalLocations (body r) = 3
      /\ safeLocations (body r) = 2
      /\ cautionLocations (body r) = 1
      /\ unsafeLocations (body r) = 0
      /\ systemStatus (body r) = "Caution".
Proof.
  split; [vm_compute; reflexivity|]. split; [vm_compute; reflexivity|].
  exact (@status_aggregation (Some (Cosmos.run Examples.mixedStore))
           Examples.newDate eq_refl eq_refl).
Defined.

(** One unrecognized status forces "Unsafe" although the other locations
    are safe. *)
Example status_warning_is_unsafe :
  exists r,
    outcome (statusHandler (Some (Cosmos.run Examples.warningStore))
               Examples.newDate) = Ok r
    /\ (totalLocations (body r), safeLocations (body r),
        cautionLocations (body r), unsafeLocations (body r)) = (3, 2, 0, 1)
    /\ systemStatus (body r) = "Unsafe"
    /\ lastUpdate (body r) = JStr "2025-01-15T10:25:00.000Z".
Proof. eexists. split; [vm_compute; reflexivity|]. repeat split. Qed.

(** The query by key fails, the display name has a record: it is returned,
    normalized to the key. *)
Example fallback_after_failure :
  exists doc,
    outcome (getLatestData (Some (Cosmos.run Examples.flakyStore)) "fifth-avenue")
    = Ok doc
    /\ normalizeDoc Examples.underAlias = Ok doc
    /\ prop doc "location" = JStr "fifth-avenue"
    /\ output (getLatestData (Some (Cosmos.run Examples.flakyStore)) "fifth-avenue")
       = [ console_error "Error querying location fifth-avenue:"
             [JStr "Request timed out"];
           console_log
             "Found data for location: Fifth Avenue (searched as: fifth-avenue)"
             [] ].
Proof. eexists. repeat split. Qed.

(* ================================================================= *)
(** * Further properties of the server *)

(** ** The normalizer is idempotent *)

Lemma toLowerCase_fixed s :
  Str.all_chars (fun c => negb (Str.is_upper c)) s = true ->
  Str.toLowerCase s = s.
Proof.
  induction s as [|c r IH]; simpl; [reflexivity|].
  intros H. apply andb_true_iff in H as [Hc Hr].
  unfold Str.lower_char. apply negb_true_iff in Hc. rewrite Hc.
  now rewrite IH.
Qed.

Lemma remove_apostrophes_fixed s :
  Str.all_chars (fun c => negb (Str.is_apostrophe c)) s = true ->
  Str.remove_apostrophes s = s.
Proof.
  induction s as [|c r IH]; simpl; [reflexivity|].
  intros H. apply andb_true_iff in H as [Hc Hr].
  apply negb_true_iff in Hc. rewrite Hc. now rewrite IH.
Qed.

Lemma replace_space_runs_fixed s : forall in_run,
  Str.all_chars (fun c => negb (Str.is_space c)) s = true ->
  Str.replace_space_runs in_run s = s.
Proof.
  induction s as [|c r IH]; simpl; intros in_run H; [reflexivity|].
  apply andb_true_iff in H as [Hc Hr].
  apply negb_true_iff in Hc. rewrite Hc. now rewrite IH.
Qed.

Lemma all_chars_weaken (p q : ascii -> bool) s :
  (forall c, p c = true -> q c = true) ->
  Str.all_chars p s = true -> Str.all_chars q s = true.
Proof.
  intros Hpq. induction s as [|c r IH]; simpl; [reflexivity|].
  intros H. apply andb_true_iff in H as [Hc Hr].
  now rewrite (Hpq _ Hc), IH.
Qed.

Lemma normalizeLocation_fixed s :
  Str.all_chars plain s = true -> normalizeLocation s = s.
Proof.
  intros H. unfold normalizeLocation.
  rewrite toLowerCase_fixed, remove_apostrophes_fixed, replace_space_runs_fixed;
    try reflexivity;
    (eapply all_chars_weaken; [|exact H]); unfold plain; intros c Hc;
    apply andb_true_iff in Hc as [Hc H3];
    apply andb_true_iff in Hc as [H1 H2]; assumption.
Qed.

(** X1: normalizing a location twice is normalizing it once. *)
Theorem normalizeLocation_idempotent (s : string) :
  normalizeLocation (normalizeLocation s) = normalizeLocation s.
Proof. apply normalizeLocation_fixed, normalizeLocation_plain. Qed.

(** What [normalizeDoc] returns: [null], or an object that starts with the
    normalized location of the record. *)
Lemma normalizeDoc_shape raw doc :
  normalizeDoc raw = Ok doc ->
  doc = JNull
  \/ exists s,
      prop raw "location" = JStr s
      /\ doc = JObj
                 [ ("location", JStr (normalizeLocation s));
                   ("timestamp",
                    js_or (prop raw "windowEnd") (prop raw "timestamp"));
                   ("avgIceThickness", prop raw "avgIceThickness");
                   ("avgSurfaceTemperature", prop raw "avgSurfaceTemperature");
                   ("maxSnowAccumulation", prop raw "maxSnowAccumulation");
                   ("avgExternalTemperature",
                    prop raw "avgExternalTemperature");
                   ("safetyStatus", prop raw "safetyStatus");
                   ("readingCount", prop raw "readingCount") ].
Proof.
  unfold normalizeDoc. destruct (truthy raw); simpl.
  - destruct (prop raw "location") as [| | | |s| |]; simpl; try discriminate.
    intros [= <-]. right. exists s. split; reflexivity.
  - intros [= <-]. now left.
Qed.

(** X2: a reading [normalizeDoc] returned is left as it is by
    [normalizeDoc]: the normalizer is idempotent on whole records. *)
Theorem normalizeDoc_idempotent (raw doc : jsval)
  (Hdoc : normalizeDoc raw = Ok doc) :
  normalizeDoc doc = Ok doc.
Proof.
  apply normalizeDoc_shape in Hdoc as [->|[s [_ ->]]]; [reflexivity|].
  unfold normalizeDoc.
  change (truthy (JObj ?f)) with true. cbn [negb].
  cbn [prop assoc String.eqb Ascii.eqb Bool.eqb andb call_toLowerCase js_or truthy].
  fold (normalizeLocation (normalizeLocation s)).
  now rewrite (normalizeLocation_fixed _ (normalizeLocation_plain s)).
Qed.

Lemma normalizeDoc_idempotent_witness :
  normalizeDoc Examples.underAlias
  = Ok (JObj [ ("location", JStr "fifth-avenue");
               ("timestamp", JStr "2025-01-15T10:20:00.000Z");
               ("avgIceThickness", JNum 32);
               ("avgSurfaceTemperature", JNum (-3));
               ("maxSnowAccumulation", JNum 5);
               ("avgExternalTemperature", JNum (-8));
               ("safetyStatus", JStr "Caution");
               ("readingCount", JNum 30) ])
  /\ normalizeDoc
       (JObj [ ("location", JStr "fifth-avenue");
               ("timestamp", JStr "2025-01-15T10:20:00.000Z");
               ("avgIceThickness", JNum 32);
               ("avgSurfaceTemperature", JNum (-3));
               ("maxSnowAccumulation", JNum 5);
               ("avgExternalTemperature", JNum (-8));
               ("safetyStatus", JStr "Caution");
               ("readingCount", JNum 30) ])
     = Ok (JObj [ ("location", JStr "fifth-avenue");
                  ("timestamp", JStr "2025-01-15T10:20:00.000Z");
                  ("avgIceThickness", JNum 32);
                  ("avgSurfaceTemperature", JNum (-3));
                  ("maxSnowAccumulation", JNum 5);
                  ("avgExternalTemperature", JNum (-8));
                  ("safetyStatus", JStr "Caution");
                  ("readingCount", JNum 30) ]).
Proof.
  split; [reflexivity|].
  apply (@normalizeDoc_idempotent Examples.underAlias). reflexivity.
Defined.

(** ** The latest-reading fetcher over any client *)

Lemma latestLoop_shape c locationKey variants v :
  outcome (latestLoop c locationKey variants) = Ok v ->
  v = JNull
  \/ exists s fields, v = JObj (("location", JStr (normalizeLocation s)) :: fields).
Proof.
  induction variants as [|loc rest IH].
  - rewrite latestLoop_nil_outcome. intros [= <-]. now left.
  - rewrite latestLoop_cons_outcome, latestAttempt_outcome.
    destruct (c (LatestByLocation loc)) as [[|first more]|e]; try exact IH.
    destruct (normalizeDoc first) as [doc|e] eqn:E; [|exact IH].
    intros [= <-]. apply normalizeDoc_shape in E as [->|[s [_ ->]]];
      [now left | right; eauto].
Qed.

(** X3: whatever the store client answers or throws, [getLatestData] does
    not throw; it returns [null] or a reading that starts with a normalized
    location. *)
Theorem getLatestData_never_throws (container : option Container)
  (locationKey : string) :
  exists v,
    outcome (getLatestData container locationKey) = Ok v
    /\ (v = JNull
        \/ exists s fields,
            v = JObj (("location", JStr (normalizeLocation s)) :: fields)).
Proof.
  destruct (getLatestData_returns container locationKey) as [v Hv].
  exists v. split; [exact Hv|].
  destruct container as [c|]; simpl in Hv.
  - eapply latestLoop_shape; eauto.
  - injection Hv as <-. now left.
Qed.

(** X4: when the query under the key itself returns a record that
    normalizes, that record is the answer and the only console line is the
    one that reports it: no other variant is consulted and no diagnostic
    query is made, whatever the client would answer to them. *)
Theorem getLatestData_key_first (c : Container) (locationKey : string)
  (first : jsval) (more : list jsval) (doc : jsval)
  (Hkey : locationKey <> EmptyString)
  (Hquery : c (LatestByLocation locationKey) = Ok (first :: more))
  (Hdoc : normalizeDoc first = Ok doc) :
  getLatestData (Some c) locationKey
  = ([ console_log
         ("Found data for location: " ++ locationKey ++
          " (searched as: " ++ locationKey ++ ")") [] ],
     Ok doc).
Proof.
  unfold getLatestData, locationVariants. cbn [filter].
  rewrite (truthy_JStr Hkey). cbn [strings latestLoop].
  unfold latestAttempt. rewrite Hquery. simpl. rewrite Hdoc. reflexivity.
Qed.

Lemma getLatestData_key_first_witness :
  Cosmos.run Examples.mixedStore (LatestByLocation "dows-lake")
  = Ok [Examples.reading "dows-lake" "2025-01-15T10:25:00.000Z" "Safe"]
  /\ exists doc,
      normalizeDoc (Examples.reading "dows-lake" "2025-01-15T10:25:00.000Z" "Safe")
      = Ok doc
      /\ getLatestData (Some (Cosmos.run Examples.mixedStore)) "dows-lake"
         = ([ console_log
                ("Found data for location: " ++ "dows-lake" ++
                 " (searched as: " ++ "dows-lake" ++ ")") [] ],
            Ok doc).
Proof.
  split; [reflexivity|]. eexists. split; [reflexivity|].
  apply (@getLatestData_key_first (Cosmos.run Examples.mixedStore) "dows-lake"
           (Examples.reading "dows-lake" "2025-01-15T10:25:00.000Z" "Safe") []).
  - discriminate.
  - reflexivity.
  - reflexivity.
Defined.

(** ** The data endpoints *)

Lemma dataLoop_outcome container locs : forall result,
  outcome (dataLoop container locs result)
  = Ok (result
        ++ filter (fun entry => truthy (snd entry))
             (map (fun loc => (loc, latestOf container loc)) locs))%list.
Proof.
  induction locs as [|loc rest IH]; intros result.
  - simpl. now rewrite app_nil_r.
  - cbn [dataLoop map filter snd].
    rewrite outcome_bind, getLatestData_latestOf. cbv beta iota.
    rewrite IH. destruct (truthy (latestOf container loc)); [|reflexivity].
    now rewrite <- app_assoc.
Qed.

Lemma dataHandler_outcome container :
  outcome (dataHandler container)
  = Ok {| status := 200; headers := [noCache];
          body := JObj (dataMapping container) |}.
Proof.
  unfold dataHandler, dataMapping.
  rewrite outcome_bind, dataLoop_outcome. reflexivity.
Qed.

(** X5: [GET /api/data] never fails: whatever the store client does, it
    answers 200 with the mapping of exactly the locations, in order, whose
    latest reading is present, each to that reading; a location without a
    reading has no key in the mapping. *)
Theorem dataHandler_mapping (container : option Container) :
  outcome (dataHandler container)
  = Ok {| status := 200; headers := [noCache];
          body := JObj (dataMapping container) |}
  /\ (forall loc,
         assoc loc (dataMapping container)
         = if existsb (String.eqb loc) locations
              && truthy (latestOf container loc)
           then latestOf container loc
           else JUndefined).
Proof.
  split; [apply dataHandler_outcome|].
  intros loc. unfold dataMapping, locations. cbn [map filter snd existsb].
  destruct (truthy (latestOf container "dows-lake")) eqn:E1;
    destruct (truthy (latestOf container "fifth-avenue")) eqn:E2;
    destruct (truthy (latestOf container "nac")) eqn:E3;
    cbn [assoc];
    rewrite ?(String.eqb_sym loc);
    repeat match goal with
      | |- context [String.eqb ?k loc] =>
          destruct (String.eqb_spec k loc) as [<-|_]; cbn [orb andb]
      end;
    rewrite ?E1, ?E2, ?E3; reflexivity.
Qed.

Lemma dataLocationHandler_outcome container location :
  outcome (dataLocationHandler container location)
  = Ok (if truthy (latestOf container location)
        then {| status := 200; headers := [];
                body := latestOf container location |}
        else {| status := 404; headers := [];
                body := JObj [("error", JStr "No data for location")] |}).
Proof.
  unfold dataLocationHandler.
  rewrite outcome_bind, getLatestData_latestOf. cbv beta iota.
  destruct (truthy (latestOf container location)); reflexivity.
Qed.

Lemma dataMapping_lookup container location :
  In location locations ->
  assoc location (dataMapping container)
  = if truthy (latestOf container location)
    then latestOf container location
    else JUndefined.
Proof.
  unfold dataMapping, locations. cbn [map filter snd].
  intros [<-|[<-|[<-|[]]]];
    destruct (truthy (latestOf container "dows-lake")) eqn:E1;
    destruct (truthy (latestOf container "fifth-avenue")) eqn:E2;
    destruct (truthy (latestOf container "nac")) eqn:E3;
    cbn [assoc String.eqb Ascii.eqb Bool.eqb]; reflexivity.
Qed.

(** X6: for each of the three locations, [GET /api/data/:location] and
    [GET /api/data] agree: the single-location endpoint answers 200 with
    the value the mapping holds under that key, and 404 with
    [{error: "No data for location"}] exactly when the mapping has no such
    key. *)
Theorem data_endpoints_agree (container : option Container)
  (location : string) (Hlocation : In location locations) :
  outcome (dataLocationHandler container location)
  = Ok (if truthy (assoc location (dataMapping container))
        then {| status := 200; headers := [];
                body := assoc location (dataMapping container) |}
        else {| status := 404; headers := [];
                body := JObj [("error", JStr "No data for location")] |}).
Proof.
  rewrite dataLocationHandler_outcome, (dataMapping_lookup container Hlocation).
  destruct (truthy (latestOf container location)) eqn:E;
    [rewrite E|]; reflexivity.
Qed.

Lemma data_endpoints_agree_witness :
  In "fifth-avenue" locations
  /\ outcome (dataLocationHandler (Some (Cosmos.run Examples.mixedStore))
                "fifth-avenue")
     = Ok (if truthy (assoc "fifth-avenue"
                        (dataMapping (Some (Cosmos.run Examples.mixedStore))))
           then {| status := 200; headers := [];
                   body := assoc "fifth-avenue"
                             (dataMapping (Some (Cosmos.run Examples.mixedStore))) |}
           else {| status := 404; headers := [];
                   body := JObj [("error", JStr "No data for location")] |}).
Proof.
  split; [right; left; reflexivity|].
  apply (@data_endpoints_agree (Some (Cosmos.run Examples.mixedStore))
           "fifth-avenue").
  right. left. reflexivity.
Defined.

(** ** The history endpoint over any client *)

Lemma historyLoop_returns c cutoff variants :
  exists rs, outcome (historyLoop c cutoff variants) = Ok rs.
Proof.
  induction variants as [|loc rest IH]; [eexists; reflexivity|].
  rewrite historyLoop_cons_outcome, historyAttempt_outcome.
  destruct cutoff as [t|]; [|exact IH].
  destruct (c (HistorySince loc (Date.format t))) as [[|r more]|e];
    try exact IH.
  eexists. reflexivity.
Qed.

Lemma map_result_normalizeDoc_error l e :
  map_result normalizeDoc l = Throw e -> isTypeError (@Throw jsval e) = true.
Proof.
  induction l as [|a rest IH]; simpl; [discriminate|].
  generalize (normalizeDoc_cases a).
  destruct (normalizeDoc a) as [doc|e'].
  - intros _. destruct (map_result normalizeDoc rest) as [docs|e''];
      [discriminate|].
    intros [= <-]. now apply IH.
  - intros [_ [_ H]] [= <-]. exact H.
Qed.

Lemma historyHandler_answer (c : Container) (zone : Date.zone) (now : Z)
  (location : string) (hoursParam : option string) :
  match outcome (historyHandler (Some c) zone now location hoursParam) with
  | Ok r =>
      status r = 200 /\ headers r = [noCache] /\ exists docs, body r = JArr docs
  | Throw e => isTypeError (@Throw jsval e) = true
  end.
Proof.
  unfold historyHandler. rewrite outcome_bind.
  destruct (historyLoop_returns c
              (Date.minusHours zone now (lookbackHours hoursParam))
              (locationVariants location)) as [rs ->].
  rewrite outcome_bind, outcome_lift.
  destruct (map_result normalizeDoc rs) as [docs|e] eqn:E.
  - simpl. repeat split. eauto.
  - eapply map_result_normalizeDoc_error; eauto.
Qed.

Lemma historyLoop_source c cutoff variants :
  exists rs,
    outcome (historyLoop c cutoff variants) = Ok rs
    /\ (rs = []
        \/ exists loc cut,
            In loc variants /\ Date.toISOString cutoff = Ok cut
            /\ c (HistorySince loc cut) = Ok rs).
Proof.
  induction variants as [|loc rest IH]; [exists []; split; auto|].
  rewrite historyLoop_cons_outcome, historyAttempt_outcome.
  assert (Hrest :
            exists rs,
              outcome (historyLoop c cutoff rest) = Ok rs
              /\ (rs = []
                  \/ exists loc' cut,
                      In loc' (loc :: rest)
                      /\ Date.toISOString cutoff = Ok cut
                      /\ c (HistorySince loc' cut) = Ok rs)).
  { destruct IH as [rs [H1 [H2|[loc' [cut [H3 [H4 H5]]]]]]]; exists rs;
      (split; [exact H1|]); [now left|].
    right. exists loc', cut. repeat split; [now right | exact H4 | exact H5]. }
  destruct cutoff as [t|]; [|exact Hrest].
  destruct (c (HistorySince loc (Date.format t))) as [[|r more]|e] eqn:E;
    try exact Hrest.
  exists (r :: more). split; [reflexivity|]. right.
  exists loc, (Date.format t). repeat split; [now left | exact E].
Qed.

Lemma map_result_throw_source l e :
  map_result normalizeDoc l = Throw e ->
  exists raw, In raw l /\ normalizeDoc raw = Throw e.
Proof.
  induction l as [|a rest IH]; simpl; [discriminate|].
  destruct (normalizeDoc a) as [doc|e'] eqn:E.
  - destruct (map_result normalizeDoc rest) as [docs|e'']; [discriminate|].
    intros [= <-]. destruct (IH eq_refl) as [raw [H1 H2]].
    exists raw. auto.
  - intros [= <-]. exists a. auto.
Qed.

(** X7: no failure of a query reaches the caller of the history endpoint.
    Against any configured store client the outcome is that of normalizing
    one result set: the empty one, or the resources a query of one of the
    variants returned for the cutoff of the request.  The handler answers
    200 with the normalized array, or throws the very exception
    [normalizeDoc] throws on one of those records, a truthy record without
    a string location; the exception of a failed query is never the
    outcome. *)
Theorem history_hides_query_failures (c : Container) (zone : Date.zone)
  (now : Z) (location : string) (hoursParam : option string) :
  exists rs,
    (rs = []
     \/ exists loc cut,
         In loc (locationVariants location)
         /\ Date.toISOString
              (Date.minusHours zone now (lookbackHours hoursParam)) = Ok cut
         /\ c (HistorySince loc cut) = Ok rs)
    /\ match outcome (historyHandler (Some c) zone now location hoursParam) with
       | Ok r =>
           status r = 200 /\ headers r = [noCache]
           /\ exists docs,
               map_result normalizeDoc rs = Ok docs /\ body r = JArr docs
       | Throw e =>
           exists raw,
             In raw rs /\ normalizeDoc raw = Throw e
             /\ truthy raw = true /\ hasStringLocation raw = false
       end.
Proof.
  destruct (historyLoop_source c
              (Date.minusHours zone now (lookbackHours hoursParam))
              (locationVariants location)) as [rs [Hrs Hsource]].
  exists rs. split; [exact Hsource|].
  unfold historyHandler. rewrite outcome_bind, Hrs. cbv beta iota.
  rewrite outcome_bind, outcome_lift.
  destruct (map_result normalizeDoc rs) as [docs|e] eqn:E.
  - simpl. repeat split. exists docs. split; reflexivity.
  - destruct (map_result_throw_source _ E) as [raw [Hin Hraw]].
    exists raw. split; [exact Hin|]. split; [exact Hraw|].
    generalize (normalizeDoc_cases raw). rewrite Hraw.
    intros [H1 [H2 _]]. split; assumption.
Qed.

Lemma historyLoop_invalid_cutoff_log c variants :
  historyLoop c None variants
  = (map (fun loc =>
            console_error ("Error querying history for " ++ loc ++ ":")
              [JStr "Invalid time value"]) variants,
     Ok []).
Proof.
  induction variants as [|loc rest IH]; [reflexivity|].
  cbn [historyLoop map]. unfold historyAttempt. cbn [Date.toISOString].
  unfold lift, try_catch, bind at 1 2. cbn [say ret message].
  unfold bind. rewrite IH. reflexivity.
Qed.

(** X8: when the window reaches beyond the range of dates (a huge [hours]),
    the RangeError of [toISOString] is caught once per variant: the handler
    prints it for each variant, sends no query and answers 200 with an
    empty array, whatever the store holds. *)
Theorem history_window_out_of_range (c : Container) (zone : Date.zone) (now : Z)
  (location : string) (hoursParam : option string)
  (Hrange : Date.minusHours zone now (lookbackHours hoursParam) = None) :
  historyHandler (Some c) zone now location hoursParam
  = (map (fun loc =>
            console_error ("Error querying history for " ++ loc ++ ":")
              [JStr "Invalid time value"]) (locationVariants location),
     Ok {| status := 200; headers := [noCache]; body := JArr [] |}).
Proof.
  unfold historyHandler. rewrite Hrange, historyLoop_invalid_cutoff_log.
  unfold bind, lift, ret. cbn [map_result]. now rewrite !app_nil_r.
Qed.

Lemma history_window_out_of_range_witness :
  Date.minusHours Date.utc Examples.now (lookbackHours (Some "3000000000")) = None
  /\ historyHandler (Some (Cosmos.run Examples.historyStore)) Date.utc Examples.now
       "dows-lake" (Some "3000000000")
     = (map (fun loc =>
               console_error ("Error querying history for " ++ loc ++ ":")
                 [JStr "Invalid time value"]) (locationVariants "dows-lake"),
        Ok {| status := 200; headers := [noCache]; body := JArr [] |}).
Proof.
  split; [reflexivity|].
  apply (@history_window_out_of_range (Cosmos.run Examples.historyStore)
           Date.utc Examples.now "dows-lake" (Some "3000000000")).
  reflexivity.
Defined.

(** ** Caching headers *)

(** X9: every answer of [GET /api/data], [GET /api/history/:location] and
    [GET /api/status] carries the no-cache header, the 500 of the history
    endpoint included; the answers of [GET /api/data/:location] carry no
    caching header at all. *)
Theorem cache_headers (container : option Container)
  (newDate : jsval -> option Z) (zone : Date.zone) (now : Z) (location : string)
  (hoursParam : option string) :
  match outcome (dataHandler container) with
  | Ok r => headers r = [noCache]
  | Throw _ => True
  end
  /\ match outcome (historyHandler container zone now location hoursParam) with
     | Ok r => headers r = [noCache]
     | Throw _ => True
     end
  /\ match outcome (statusHandler container newDate) with
     | Ok r => headers r = [noCache]
     | Throw _ => True
     end
  /\ match outcome (dataLocationHandler container location) with
     | Ok r => headers r = []
     | Throw _ => True
     end.
Proof.
  split; [now rewrite dataHandler_outcome|].
  split.
  { destruct container as [c|]; [|reflexivity].
    generalize (historyHandler_answer c zone now location hoursParam).
    destruct (outcome (historyHandler (Some c) zone now location hoursParam));
      [intros [_ [H _]]; exact H | trivial]. }
  split.
  { unfold statusHandler. rewrite outcome_bind.
    destruct (outcome (statusLoop container newDate locations tally0));
      [|exact I].
    rewrite outcome_bind, outcome_lift.
    destruct (match t_latestTimestamp a with Some d => _ | None => _ end);
      [reflexivity | exact I]. }
  rewrite dataLocationHandler_outcome.
  destruct (truthy (latestOf container location)); reflexivity.
Qed.

(** ** Readings carry the requested key *)

Lemma variants_normalize key loc :
  In key locations -> In loc (locationVariants key) ->
  normalizeLocation loc = key.
Proof.
  unfold locations.
  intros [<-|[<-|[<-|[]]]] Hloc; vm_compute in Hloc;
    destruct Hloc as [<-|[<-|[]]]; reflexivity.
Qed.

Lemma hasLocation_prop loc d :
  Cosmos.hasLocation loc d = true -> prop d "location" = JStr loc.
Proof.
  unfold Cosmos.hasLocation.
  destruct (prop d "location"); try discriminate.
  intros H. apply String.eqb_eq in H. now subst.
Qed.

Lemma located_normalizes key loc d doc :
  In key locations -> In loc (locationVariants key) ->
  Cosmos.hasLocation loc d = true -> normalizeDoc d = Ok doc ->
  prop doc "location" = JStr key.
Proof.
  intros Hkey Hloc Hd Hdoc.
  destruct (hasLocation_normalizes _ _ Hd) as [doc' [H1 H2]].
  rewrite Hdoc in H1. injection H1 as <-.
  apply hasLocation_prop in Hd.
  apply normalizeDoc_shape in Hdoc as [->|[s [Hs ->]]]; [discriminate H2|].
  rewrite Hd in Hs. injection Hs as <-.
  cbn [prop assoc String.eqb Ascii.eqb Bool.eqb andb].
  now rewrite (@variants_normalize key loc Hkey Hloc).
Qed.

Lemma firstYield_located s variants d :
  Spec.firstYield s variants = Some d ->
  exists loc, In loc variants /\ Cosmos.hasLocation loc d = true.
Proof.
  induction variants as [|loc rest IH]; simpl; [discriminate|].
  destruct (Spec.yields s loc) as [m|] eqn:E.
  - intros [= <-]. exists loc. split; [now left|].
    eapply yields_normalizes; eauto.
  - intros H. destruct (IH H) as [loc' [H1 H2]]. exists loc'. auto.
Qed.

(** X10: for each of the three locations and any store, the reading
    [getLatestData] returns carries the requested key as its [location],
    whether it was stored under the key or under the display name. *)
Theorem latest_location_is_key (s : Cosmos.store) (locationKey : string)
  (Hkey : In locationKey locations) :
  exists v,
    outcome (getLatestData (Some (Cosmos.run s)) locationKey) = Ok v
    /\ (v = JNull \/ prop v "location" = JStr locationKey).
Proof.
  cbn [getLatestData]. rewrite latestLoop_cosmos.
  destruct (Spec.firstYield s (locationVariants locationKey)) as [d|] eqn:E.
  - destruct (firstYield_located _ _ E) as [loc [Hloc Hd]].
    destruct (hasLocation_normalizes _ _ Hd) as [doc [Hdoc _]].
    exists doc. split; [exact Hdoc|]. right.
    eapply located_normalizes; eauto.
  - exists JNull. split; [reflexivity | now left].
Qed.

Lemma latest_location_is_key_witness :
  In "fifth-avenue" locations
  /\ exists v,
      outcome (getLatestData (Some (Cosmos.run Examples.mixedStore))
                 "fifth-avenue") = Ok v
      /\ (v = JNull \/ prop v "location" = JStr "fifth-avenue").
Proof.
  split; [right; left; reflexivity|].
  apply (@latest_location_is_key Examples.mixedStore "fifth-avenue").
  right. left. reflexivity.
Defined.

Lemma firstInWindow_variant s cut variants d :
  In d (Spec.firstInWindow s cut variants) ->
  exists loc,
    In loc variants /\ Cosmos.hasLocation loc d = true
    /\ Cosmos.since cut d = true.
Proof.
  induction variants as [|loc rest IH]; simpl; [tauto|].
  destruct (Spec.inWindow s cut loc) as [|x l] eqn:E.
  - intros H. destruct (IH H) as [loc' [H1 H2]]. exists loc'. auto.
  - intros H. rewrite <- E in H. unfold Spec.inWindow in H.
    destruct (Cosmos.failure s (HistorySince loc cut)); [destruct H|].
    apply filter_In in H as [_ H]. apply andb_true_iff in H as [H1 H2].
    exists loc. auto.
Qed.

Lemma map_result_In {A B} (f : A -> result B) l : forall bs b,
  map_result f l = Ok bs -> In b bs -> exists a, In a l /\ f a = Ok b.
Proof.
  induction l as [|a rest IH]; simpl; intros bs b.
  - intros [= <-] [].
  - destruct (f a) as [b0|e] eqn:E; [|discriminate].
    destruct (map_result f rest) as [bs0|e]; [|discriminate].
    intros [= <-] [<-|Hin].
    + exists a. auto.
    + destruct (IH _ _ eq_refl Hin) as [a' [H1 H2]]. exists a'. auto.
Qed.

(** The records the history handler selects from a store, and their
    normalized forms. *)
Lemma historyHandler_cosmos s zone now location hoursParam :
  exists rs docs,
    outcome (historyHandler (Some (Cosmos.run s)) zone now location hoursParam)
    = Ok {| status := 200; headers := [noCache]; body := JArr docs |}
    /\ map_result normalizeDoc rs = Ok docs
    /\ match Date.minusHours zone now (lookbackHours hoursParam) with
       | Some cutoff =>
           Permutation rs
             (Spec.firstInWindow s (Date.format cutoff)
                (locationVariants location))
       | None => rs = []
       end.
Proof.
  unfold historyHandler.
  destruct (Date.minusHours zone now (lookbackHours hoursParam)) as [t|].
  - destruct (historyLoop_cosmos s t (locationVariants location))
      as [rs [Hrs [_ Hperm]]].
    assert (Hall : Forall (fun d => exists doc, normalizeDoc d = Ok doc) rs).
    { apply Forall_forall. intros d Hd.
      eapply Permutation_in in Hd; [|exact Hperm].
      apply firstInWindow_located in Hd as [loc [Hloc _]].
      destruct (hasLocation_normalizes _ _ Hloc) as [doc [Hdoc _]]. eauto. }
    destruct (map_result_all _ Hall) as [docs Hdocs].
    exists rs, docs. rewrite outcome_bind, Hrs. cbv beta iota.
    rewrite outcome_bind, outcome_lift, Hdocs. repeat split; assumption.
  - exists [], []. rewrite outcome_bind, historyLoop_invalid_cutoff.
    repeat split.
Qed.

(** X11: for each of the three locations and any store, every reading in
    the answer of the history endpoint carries the requested key as its
    [location]. *)
Theorem history_location_is_key (s : Cosmos.store) (zone : Date.zone) (now : Z)
  (locationKey : string) (hoursParam : option string)
  (Hkey : In locationKey locations) :
  exists docs,
    outcome (historyHandler (Some (Cosmos.run s)) zone now locationKey hoursParam)
    = Ok {| status := 200; headers := [noCache]; body := JArr docs |}
    /\ Forall (fun doc => prop doc "location" = JStr locationKey) docs.
Proof.
  destruct (historyHandler_cosmos s zone now locationKey hoursParam)
    as [rs [docs [Hout [Hdocs Hsel]]]].
  exists docs. split; [exact Hout|].
  apply Forall_forall. intros doc Hdoc.
  destruct (@map_result_In _ _ normalizeDoc rs docs doc Hdocs Hdoc) as [r [Hr Hn]].
  destruct (Date.minusHours zone now (lookbackHours hoursParam)) as [t|];
    [|subst rs; destruct Hr].
  eapply Permutation_in in Hr; [|exact Hsel].
  apply firstInWindow_variant in Hr as [loc [Hloc [Hd _]]].
  eapply located_normalizes; eauto.
Qed.

Lemma history_location_is_key_witness :
  In "dows-lake" locations
  /\ exists docs,
      outcome (historyHandler (Some (Cosmos.run Examples.historyStore))
                 Date.utc Examples.now "dows-lake" (Some "2"))
      = Ok {| status := 200; headers := [noCache]; body := JArr docs |}
      /\ Forall (fun doc => prop doc "location" = JStr "dows-lake") docs.
Proof.
  split; [left; reflexivity|].
  apply (@history_location_is_key Examples.historyStore Date.utc Examples.now
           "dows-lake" (Some "2")).
  left. reflexivity.
Defined.

(** ** More on the status aggregator *)

Lemma tallyReading_tracks newDate loc data t t' :
  tallyReading newDate loc data t = Ok t' ->
  t_locationData t' = (t_locationData t ++ [(loc, data)])%list
  /\ t_latestTimestamp t' = trackLatest newDate (t_latestTimestamp t) data
  /\ t_total t' = S (t_total t).
Proof.
  unfold tallyReading, trackLatest.
  destruct (call_toLowerCase _ _) as [status|e]; [|discriminate].
  intros [= <-].
  destruct (classify status);
    destruct (truthy (prop data "timestamp")); cbn [count t_latestTimestamp];
    try destruct (match t_latestTimestamp t with
                  | Some latest => _ | None => _ end);
    repeat split.
Qed.

Lemma tallyReading_error newDate loc data t e :
  tallyReading newDate loc data t = Throw e ->
  isTypeError (@Throw tally e) = true.
Proof.
  unfold tallyReading, call_toLowerCase.
  destruct (js_or (prop data "safetyStatus") (JStr EmptyString));
    try discriminate; intros [= <-]; reflexivity.
Qed.

Lemma tallyReading_untyped newDate loc data t :
  statusTyped data = false ->
  exists e, tallyReading newDate loc data t = Throw e.
Proof.
  unfold statusTyped, tallyReading, js_or.
  destruct (prop data "safetyStatus") as [| |b|n|s|l|l]; try discriminate;
    intros H; apply negb_false_iff in H; rewrite H; eexists; reflexivity.
Qed.

Lemma tallyReading_typed_returns newDate loc data t :
  statusTyped data = true -> exists t', tallyReading newDate loc data t = Ok t'.
Proof.
  intros H. destruct (classify_safetyClass _ H) as [status [Hcall _]].
  unfold tallyReading. rewrite Hcall. eexists. reflexivity.
Qed.

Lemma statusLoop_tracks container newDate locs : forall t t',
  outcome (statusLoop container newDate locs t) = Ok t' ->
  t_locationData t'
  = (t_locationData t
     ++ filter (fun entry => truthy (snd entry))
          (map (fun loc => (loc, latestOf container loc)) locs))%list
  /\ t_latestTimestamp t'
     = fold_left (trackLatest newDate)
         (filter truthy (map (latestOf container) locs))
         (t_latestTimestamp t)
  /\ t_total t'
     = t_total t
       + List.length
           (filter (fun entry => truthy (snd entry))
              (map (fun loc => (loc, latestOf container loc)) locs)).
Proof.
  induction locs as [|loc rest IH]; intros t t'.
  - intros [= <-]. simpl. rewrite app_nil_r, Nat.add_0_r. repeat split.
  - rewrite statusLoop_cons_outcome. cbn [map filter snd].
    destruct (truthy (latestOf container loc)); [|apply IH].
    destruct (tallyReading newDate loc (latestOf container loc) t)
      as [t1|e] eqn:E; [|discriminate].
    intros H. apply IH in H as [H1 [H2 H3]].
    apply tallyReading_tracks in E as [E1 [E2 E3]].
    cbn [fold_left List.length].
    rewrite H1, H2, H3, E1, E2, E3, <- app_assoc.
    repeat split. lia.
Qed.

Lemma statusLoop_typed_returns container newDate locs : forall t,
  forallb statusTyped (filter truthy (map (latestOf container) locs)) = true ->
  exists t', outcome (statusLoop container newDate locs t) = Ok t'.
Proof.
  induction locs as [|loc rest IH]; intros t H; [eexists; reflexivity|].
  rewrite statusLoop_cons_outcome. cbn [map filter] in H.
  destruct (truthy (latestOf container loc)); [|now apply IH].
  cbn [forallb] in H. apply andb_true_iff in H as [H1 H2].
  destruct (@tallyReading_typed_returns newDate loc _ t H1) as [t1 ->].
  now apply IH.
Qed.

Lemma statusLoop_untyped container newDate locs : forall t,
  existsb (fun data => negb (statusTyped data))
    (filter truthy (map (latestOf container) locs)) = true ->
  isTypeError (outcome (statusLoop container newDate locs t)) = true.
Proof.
  induction locs as [|loc rest IH]; intros t H; [discriminate H|].
  rewrite statusLoop_cons_outcome. cbn [map filter] in H.
  destruct (truthy (latestOf container loc)); [|now apply IH].
  cbn [existsb] in H.
  destruct (tallyReading newDate loc (latestOf container loc) t)
    as [t1|e] eqn:E.
  - destruct (statusTyped (latestOf container loc)) eqn:T.
    + simpl in H. now apply IH.
    + destruct (@tallyReading_untyped newDate loc _ t T) as [e E'].
      rewrite E in E'. discriminate E'.
  - eapply tallyReading_error; eauto.
Qed.

Lemma statusLoop_nothing container newDate locs : forall t,
  filter truthy (map (latestOf container) locs) = [] ->
  outcome (statusLoop container newDate locs t) = Ok t.
Proof.
  induction locs as [|loc rest IH]; intros t H; [reflexivity|].
  rewrite statusLoop_cons_outcome. cbn [map filter] in H.
  destruct (truthy (latestOf container loc)); [discriminate H | now apply IH].
Qed.

(** The answer of the status handler in terms of the final tally. *)
Lemma statusHandler_outcome container newDate :
  outcome (statusHandler container newDate) =
  match outcome (statusLoop container newDate locations tally0) with
  | Throw e => Throw e
  | Ok t =>
      match t_latestTimestamp t with
      | Some None => Throw (RangeError "Invalid time value")
      | latest =>
          Ok {| status := 200; headers := [noCache];
                body :=
                  {| systemStatus :=
                       deriveSystemStatus (t_total t) (t_safe t)
                         (t_caution t) (t_unsafe t);
                     totalLocations := t_total t;
                     safeLocations := t_safe t;
                     cautionLocations := t_caution t;
                     unsafeLocations := t_unsafe t;
                     lastUpdate :=
                       match latest with
                       | Some (Some ms) => JStr (Date.format ms)
                       | _ => JNull
                       end;
                     locationData := t_locationData t |} |}
      end
  end.
Proof.
  unfold statusHandler. rewrite outcome_bind.
  destruct (outcome (statusLoop container newDate locations tally0))
    as [t|e]; [|reflexivity].
  rewrite outcome_bind, outcome_lift.
  destruct (t_latestTimestamp t) as [[ms|]|]; reflexivity.
Qed.

(** X12: whenever [GET /api/status] answers, its [locations] object is the
    mapping [GET /api/data] answers for the same store, and
    [totalLocations] is the number of its keys. *)
Theorem status_locations_are_data (container : option Container)
  (newDate : jsval -> option Z) (r : response StatusSummary)
  (Hresponse : outcome (statusHandler container newDate) = Ok r) :
  outcome (dataHandler container)
  = Ok {| status := 200; headers := [noCache];
          body := JObj (locationData (body r)) |}
  /\ totalLocations (body r) = List.length (locationData (body r)).
Proof.
  rewrite dataHandler_outcome.
  rewrite statusHandler_outcome in Hresponse.
  destruct (outcome (statusLoop container newDate locations tally0))
    as [t|e] eqn:E; [|discriminate].
  apply statusLoop_tracks in E as [Hdata [_ Htotal]].
  cbn [tally0 t_locationData t_total app Nat.add] in Hdata, Htotal.
  fold (dataMapping container) in Hdata, Htotal.
  destruct (t_latestTimestamp t) as [[ms|]|]; try discriminate;
    injection Hresponse as <-;
    cbn [body locationData totalLocations];
    rewrite Hdata, Htotal; split; reflexivity.
Qed.

Lemma status_locations_are_data_witness :
  exists r,
    outcome (statusHandler (Some (Cosmos.run Examples.mixedStore))
               Examples.newDate) = Ok r
    /\ outcome (dataHandler (Some (Cosmos.run Examples.mixedStore)))
       = Ok {| status := 200; headers := [noCache];
               body := JObj (locationData (body r)) |}
    /\ totalLocations (body r) = List.length (locationData (body r)).
Proof.
  eexists. split; [vm_compute; reflexivity|].
  apply (@status_locations_are_data (Some (Cosmos.run Examples.mixedStore))
           Examples.newDate).
  vm_compute. reflexivity.
Defined.

Lemma trackLatest_valid newDate data m :
  datable newDate data = true ->
  trackLatest newDate (Some (Some m)) data
  = Some (Some (fold_left Z.max (instants newDate [data]) m)).
Proof.
  unfold datable, trackLatest, instants. cbn [flat_map].
  destruct (truthy (prop data "timestamp")); [|reflexivity].
  destruct (newDate (prop data "timestamp")) as [x|]; [|discriminate].
  intros _. cbn [app fold_left Date.gt].
  destruct (Z.ltb_spec m x).
  - now rewrite Z.max_r by lia.
  - now rewrite Z.max_l by lia.
Qed.

Lemma instants_cons newDate d l :
  instants newDate (d :: l)
  = (instants newDate [d] ++ instants newDate l)%list.
Proof. unfold instants. cbn [flat_map]. now rewrite app_nil_r. Qed.

Lemma track_valid_from newDate l : forall m,
  forallb (datable newDate) l = true ->
  fold_left (trackLatest newDate) l (Some (Some m))
  = Some (Some (fold_left Z.max (instants newDate l) m)).
Proof.
  induction l as [|d rest IH]; intros m H; [reflexivity|].
  cbn [forallb] in H. apply andb_true_iff in H as [Hd Hrest].
  cbn [fold_left]. rewrite trackLatest_valid by exact Hd.
  rewrite IH by exact Hrest.
  now rewrite (instants_cons newDate d rest), fold_left_app.
Qed.

Lemma track_valid newDate l :
  forallb (datable newDate) l = true ->
  fold_left (trackLatest newDate) l None
  = match instants newDate l with
    | [] => None
    | t :: ts => Some (Some (fold_left Z.max ts t))
    end.
Proof.
  induction l as [|d rest IH]; intros H; [reflexivity|].
  cbn [forallb] in H. apply andb_true_iff in H as [Hd Hrest].
  cbn [fold_left]. rewrite (instants_cons newDate d rest).
  unfold trackLatest at 2. unfold datable in Hd. unfold instants at 1.
  cbn [flat_map].
  destruct (truthy (prop d "timestamp")).
  - destruct (newDate (prop d "timestamp")) as [x|]; [|discriminate].
    cbn [app]. now apply track_valid_from.
  - cbn [app]. now apply IH.
Qed.

(** X13: when the present readings carry statuses that are strings or
    absent and timestamps that are dates, [lastUpdate] is [null] if no
    present reading has a timestamp and otherwise the ISO form of the
    greatest of their instants; a reading without timestamp does not
    count. *)
Theorem lastUpdate_is_latest (container : option Container)
  (newDate : jsval -> option Z)
  (Htyped : forallb statusTyped (presentReadings container) = true)
  (Hdates : forallb (datable newDate) (presentReadings container) = true) :
  exists r,
    outcome (statusHandler container newDate) = Ok r
    /\ lastUpdate (body r)
       = match instants newDate (presentReadings container) with
         | [] => JNull
         | t :: ts => JStr (Date.format (fold_left Z.max ts t))
         end.
Proof.
  unfold presentReadings in *.
  destruct (@statusLoop_typed_returns container newDate locations tally0 Htyped)
    as [t Hloop].
  rewrite statusHandler_outcome, Hloop.
  apply statusLoop_tracks in Hloop as [_ [Hlatest _]].
  cbn [tally0 t_latestTimestamp] in Hlatest.
  rewrite track_valid in Hlatest by exact Hdates. rewrite Hlatest.
  destruct (instants newDate (filter truthy (map (latestOf container) locations)));
    eexists; split; reflexivity.
Qed.

Lemma lastUpdate_is_latest_witness :
  forallb statusTyped (presentReadings (Some (Cosmos.run Examples.mixedStore)))
  = true
  /\ forallb (datable Examples.newDate)
       (presentReadings (Some (Cosmos.run Examples.mixedStore))) = true
  /\ exists r,
      outcome (statusHandler (Some (Cosmos.run Examples.mixedStore))
                 Examples.newDate) = Ok r
      /\ lastUpdate (body r) = JStr "2025-01-15T10:25:00.000Z".
Proof.
  split; [vm_compute; reflexivity|]. split; [vm_compute; reflexivity|].
  exact (@lastUpdate_is_latest (Some (Cosmos.run Examples.mixedStore))
           Examples.newDate eq_refl eq_refl).
Defined.

Lemma track_invalid_stays newDate l :
  fold_left (trackLatest newDate) l (Some None) = Some None.
Proof.
  induction l as [|d rest IH]; [reflexivity|].
  cbn [fold_left]. unfold trackLatest at 2.
  destruct (truthy (prop d "timestamp")); [|exact IH].
  unfold Date.gt. destruct (newDate (prop d "timestamp")); exact IH.
Qed.

Lemma track_first_invalid newDate l d :
  firstDated l = Some d -> newDate (prop d "timestamp") = None ->
  fold_left (trackLatest newDate) l None = Some None.
Proof.
  unfold firstDated. induction l as [|a rest IH]; [discriminate|].
  cbn [find fold_left]. unfold trackLatest at 2.
  destruct (truthy (prop a "timestamp")).
  - intros [= ->] Hd. rewrite Hd. apply track_invalid_stays.
  - exact IH.
Qed.

(** X14: when the first present reading that has a timestamp has one that
    is no date, [latestTimestamp] becomes an Invalid Date and stays so:
    although every status is well formed and later readings may be dated,
    the status handler answers nothing and throws the RangeError of
    [toISOString]. *)
Theorem status_invalid_date_throws (container : option Container)
  (newDate : jsval -> option Z) (data : jsval)
  (Htyped : forallb statusTyped (presentReadings container) = true)
  (Hfirst : firstDated (presentReadings container) = Some data)
  (Hinvalid : newDate (prop data "timestamp") = None) :
  outcome (statusHandler container newDate)
  = Throw (RangeError "Invalid time value").
Proof.
  unfold presentReadings in *.
  destruct (@statusLoop_typed_returns container newDate locations tally0 Htyped)
    as [t Hloop].
  rewrite statusHandler_outcome, Hloop.
  apply statusLoop_tracks in Hloop as [_ [Hlatest _]].
  cbn [tally0 t_latestTimestamp] in Hlatest.
  rewrite (@track_first_invalid newDate _ data Hfirst Hinvalid) in Hlatest.
  now rewrite Hlatest.
Qed.

Lemma status_invalid_date_throws_witness :
  forallb statusTyped (presentReadings (Some (Cosmos.run Samples.undatedStore)))
  = true
  /\ firstDated (presentReadings (Some (Cosmos.run Samples.undatedStore)))
     = Some Samples.undatedReading
  /\ Examples.newDate (prop Samples.undatedReading "timestamp") = None
  /\ outcome (statusHandler (Some (Cosmos.run Samples.undatedStore))
                Examples.newDate)
     = Throw (RangeError "Invalid time value").
Proof.
  assert (H1 : forallb statusTyped
                 (presentReadings (Some (Cosmos.run Samples.undatedStore)))
               = true) by (vm_compute; reflexivity).
  assert (H2 : firstDated
                 (presentReadings (Some (Cosmos.run Samples.undatedStore)))
               = Some Samples.undatedReading) by (vm_compute; reflexivity).
  assert (H3 : Examples.newDate (prop Samples.undatedReading "timestamp")
               = None) by (vm_compute; reflexivity).
  split; [exact H1|]. split; [exact H2|]. split; [exact H3|].
  exact (@status_invalid_date_throws (Some (Cosmos.run Samples.undatedStore))
           Examples.newDate Samples.undatedReading H1 H2 H3).
Defined.

(** X15: one present reading whose [safetyStatus] is truthy and not a
    string (a number, [true], an object) makes the status handler throw a
    TypeError and answer nothing, wherever that reading stands. *)
Theorem status_untyped_throws (container : option Container)
  (newDate : jsval -> option Z)
  (Huntyped : existsb (fun data => negb (statusTyped data))
                (presentReadings container) = true) :
  isTypeError (outcome (statusHandler container newDate)) = true.
Proof.
  rewrite statusHandler_outcome.
  pose proof (@statusLoop_untyped container newDate locations tally0 Huntyped)
    as H.
  destruct (outcome (statusLoop container newDate locations tally0));
    [discriminate H | exact H].
Qed.

Lemma status_untyped_throws_witness :
  existsb (fun data => negb (statusTyped data))
    (presentReadings (Some (Cosmos.run Samples.gradedStore))) = true
  /\ isTypeError
       (outcome (statusHandler (Some (Cosmos.run Samples.gradedStore))
                   Examples.newDate)) = true
  /\ exists r,
      outcome (dataHandler (Some (Cosmos.run Samples.gradedStore))) = Ok r.
Proof.
  split; [vm_compute; reflexivity|].
  split; [|eexists; vm_compute; reflexivity].
  apply (@status_untyped_throws (Some (Cosmos.run Samples.gradedStore))
           Examples.newDate).
  vm_compute. reflexivity.
Defined.

(** X16: when no location has a reading, an unconfigured store client
    included, the status handler answers 200 with "No Data", all counts 0,
    [lastUpdate] [null] and no location: absent readings are not counted as
    unsafe and an unconfigured store is not told apart. *)
Theorem status_no_data (container : option Container)
  (newDate : jsval -> option Z)
  (Hnone : presentReadings container = []) :
  outcome (statusHandler container newDate)
  = Ok {| status := 200; headers := [noCache];
          body := {| systemStatus := "No Data";
                     totalLocations := 0; safeLocations := 0;
                     cautionLocations := 0; unsafeLocations := 0;
                     lastUpdate := JNull; locationData := [] |} |}.
Proof.
  rewrite statusHandler_outcome.
  now rewrite (@statusLoop_nothing container newDate locations tally0 Hnone).
Qed.

Lemma status_no_data_witness :
  presentReadings None = []
  /\ outcome (statusHandler None Examples.newDate)
     = Ok {| status := 200; headers := [noCache];
             body := {| systemStatus := "No Data";
                        totalLocations := 0; safeLocations := 0;
                        cautionLocations := 0; unsafeLocations := 0;
                        lastUpdate := JNull; locationData := [] |} |}.
Proof.
  split; [reflexivity|].
  apply (@status_no_data None Examples.newDate). reflexivity.
Defined.

(* ================================================================= *)
(** * The dashboard against the server *)

(** X17: for every reading, the badge class the dashboard computes from
    [safetyStatus] names the counter the status handler increments for it:
    "safe", "caution" and "unsafe" for the safe, caution and unsafe counts;
    and the two throw on the same statuses (truthy values that are not
    strings). *)
Theorem badge_agrees_with_tally (newDate : jsval -> option Z) (loc : string)
  (data : jsval) (t : tally) :
  match Dashboard.getSafetyBadgeClass (prop data "safetyStatus"),
        tallyReading newDate loc data t with
  | Ok cls, Ok t' =>
      t_safe t' = t_safe t + (if cls =? "safe" then 1 else 0)
      /\ t_caution t' = t_caution t + (if cls =? "caution" then 1 else 0)
      /\ t_unsafe t' = t_unsafe t + (if cls =? "unsafe" then 1 else 0)
  | Throw _, Throw _ => True
  | _, _ => False
  end.
Proof.
  unfold Dashboard.getSafetyBadgeClass, tallyReading, call_toLowerCase.
  destruct (js_or (prop data "safetyStatus") (JStr EmptyString));
    try exact I.
  unfold classify.
  destruct (Str.toLowerCase s =? "safe");
    [|destruct (Str.toLowerCase s =? "caution")];
    destruct (truthy (prop data "timestamp")); cbn [count t_latestTimestamp];
    try destruct (match t_latestTimestamp t with
                  | Some latest => _ | None => _ end);
    cbn [t_safe t_caution t_unsafe String.eqb Ascii.eqb Bool.eqb];
    repeat split; lia.
Qed.

Lemma format_nonempty t : Date.format t <> EmptyString.
Proof.
  unfold Date.format.
  destruct (Date.civil (t / Date.msPerDay)) as [[y m] d].
  destruct (Date.year y); cbn [append]; discriminate.
Qed.

Lemma leb_nonempty cut w :
  cut <> EmptyString -> String.leb cut w = true -> w <> EmptyString.
Proof.
  intros Hcut H ->. destruct cut; [now apply Hcut | discriminate H].
Qed.

Lemma since_windowEnd t d :
  Cosmos.since (Date.format t) d = true ->
  exists w, prop d "windowEnd" = JStr w /\ truthy (JStr w) = true.
Proof.
  unfold Cosmos.since, Cosmos.windowEnd.
  destruct (prop d "windowEnd") as [| | | |w| |]; try discriminate.
  intros H. exists w. split; [reflexivity|].
  apply truthy_JStr. eapply leb_nonempty; [apply format_nonempty | exact H].
Qed.

(** A stored record inside the window, once normalized, is plotted exactly
    when it has the measurement. *)
Lemma plottable_normalized newDate field loc t r doc :
  In field ["avgIceThickness"; "avgSurfaceTemperature"] ->
  Cosmos.hasLocation loc r = true ->
  Cosmos.since (Date.format t) r = true ->
  normalizeDoc r = Ok doc ->
  Dashboard.validData newDate field [doc]
  = if Dashboard.notNull (prop r field)
    then [ {| Dashboard.x := newDate (prop r "windowEnd");
              Dashboard.y := prop r field |} ]
    else [].
Proof.
  intros Hfield Hloc Hsince Hdoc.
  destruct (hasLocation_normalizes _ _ Hloc) as [doc' [H1 H2]].
  rewrite Hdoc in H1. injection H1 as <-.
  destruct (since_windowEnd _ _ Hsince) as [w [Hw Htruthy]].
  apply normalizeDoc_shape in Hdoc as [->|[s [_ ->]]]; [discriminate H2|].
  unfold Dashboard.validData, Dashboard.plottable, js_or.
  rewrite Hw, Htruthy.
  destruct Hfield as [<-|[<-|[]]];
    cbn [filter map truthy prop assoc String.eqb Ascii.eqb Bool.eqb andb];
    cbn [truthy] in Htruthy; rewrite Htruthy; cbn [andb];
    match goal with
    | |- context [Dashboard.notNull ?v] => destruct (Dashboard.notNull v)
    end; reflexivity.
Qed.

Lemma validData_cons newDate field doc docs :
  Dashboard.validData newDate field (doc :: docs)
  = (Dashboard.validData newDate field [doc]
     ++ Dashboard.validData newDate field docs)%list.
Proof.
  unfold Dashboard.validData. cbn [filter].
  destruct (Dashboard.plottable field doc); reflexivity.
Qed.

Lemma validData_normalized newDate field t rs : forall docs,
  In field ["avgIceThickness"; "avgSurfaceTemperature"] ->
  Forall (fun r => exists loc,
              Cosmos.hasLocation loc r = true
              /\ Cosmos.since (Date.format t) r = true) rs ->
  map_result normalizeDoc rs = Ok docs ->
  Dashboard.validData newDate field docs
  = map (fun r => {| Dashboard.x := newDate (prop r "windowEnd");
                     Dashboard.y := prop r field |})
      (filter (fun r => Dashboard.notNull (prop r field)) rs).
Proof.
  intros docs Hfield Hall. revert docs.
  induction Hall as [|r rest [loc [Hloc Hsince]] _ IH]; intros docs.
  - intros [= <-]. reflexivity.
  - cbn [map_result].
    destruct (normalizeDoc r) as [doc|e] eqn:E; [|discriminate].
    destruct (map_result normalizeDoc rest) as [docs'|e]; [|discriminate].
    intros [= <-]. rewrite validData_cons, (IH _ eq_refl).
    rewrite (@plottable_normalized newDate field loc t r doc Hfield Hloc Hsince E).
    cbn [filter]. destruct (Dashboard.notNull (prop r field)); reflexivity.
Qed.

(** X18: the chart series the dashboard builds from the answer of the
    history endpoint holds one point for each selected record that has the
    measurement (neither [null] nor absent), in the order of the answer,
    with the record's [windowEnd] as date and the measurement as value: no
    record of the window is dropped for want of a timestamp.  (Reading a
    field of the decoded JSON gives what reading it on the value the server
    sent gives, a field that is [undefined] being left out.) *)
Theorem chart_points_are_measured_records (s : Cosmos.store) (zone : Date.zone) (now : Z)
  (location : string) (hoursParam : option string)
  (newDate : jsval -> option Z) (field : string)
  (Hfield : In field ["avgIceThickness"; "avgSurfaceTemperature"]) :
  exists rs docs,
    outcome (historyHandler (Some (Cosmos.run s)) zone now location hoursParam)
    = Ok {| status := 200; headers := [noCache]; body := JArr docs |}
    /\ map_result normalizeDoc rs = Ok docs
    /\ match Date.minusHours zone now (lookbackHours hoursParam) with
       | Some cutoff =>
           Permutation rs
             (Spec.firstInWindow s (Date.format cutoff)
                (locationVariants location))
       | None => rs = []
       end
    /\ Dashboard.validData newDate field docs
       = map (fun r => {| Dashboard.x := newDate (prop r "windowEnd");
                          Dashboard.y := prop r field |})
           (filter (fun r => Dashboard.notNull (prop r field)) rs).
Proof.
  destruct (historyHandler_cosmos s zone now location hoursParam)
    as [rs [docs [Hout [Hdocs Hsel]]]].
  exists rs, docs. repeat split; try assumption.
  destruct (Date.minusHours zone now (lookbackHours hoursParam)) as [t|].
  - eapply validData_normalized; eauto.
    apply Forall_forall. intros r Hr.
    eapply Permutation_in in Hr; [|exact Hsel].
    apply firstInWindow_located in Hr. exact Hr.
  - subst rs. injection Hdocs as <-. reflexivity.
Qed.

Lemma chart_points_are_measured_records_witness :
  In "avgIceThickness" ["avgIceThickness"; "avgSurfaceTemperature"]
  /\ exists rs docs,
      outcome (historyHandler (Some (Cosmos.run Samples.chartStore))
                 Date.utc Examples.now "dows-lake" (Some "1"))
      = Ok {| status := 200; headers := [noCache]; body := JArr docs |}
      /\ map_result normalizeDoc rs = Ok docs
      /\ match Date.minusHours Date.utc Examples.now (lookbackHours (Some "1")) with
         | Some cutoff =>
             Permutation rs
               (Spec.firstInWindow Samples.chartStore (Date.format cutoff)
                  (locationVariants "dows-lake"))
         | None => rs = []
         end
      /\ Dashboard.validData Examples.newDate "avgIceThickness" docs
         = map (fun r =>
                  {| Dashboard.x := Examples.newDate (prop r "windowEnd");
                     Dashboard.y := prop r "avgIceThickness" |})
             (filter (fun r => Dashboard.notNull (prop r "avgIceThickness"))
                rs).
Proof.
  split; [left; reflexivity|].
  apply (@chart_points_are_measured_records Samples.chartStore Date.utc Examples.now
           "dows-lake" (Some "1") Examples.newDate "avgIceThickness").
  left. reflexivity.
Defined.

(* ================================================================= *)
(** * The history endpoint keeps the order of the store *)

(** X19: when the query under the key itself returns records, the history
    handler answers with those records normalized one by one, in the order
    the store client returned them and without consulting another variant:
    the server itself neither sorts nor filters, and it prints nothing. *)
Theorem history_keeps_store_order (c : Container) (zone : Date.zone) (now : Z)
  (location : string) (hoursParam : option string) (cutoff : Z)
  (r : jsval) (more : list jsval)
  (Hkey : location <> EmptyString)
  (Hcut : Date.minusHours zone now (lookbackHours hoursParam) = Some cutoff)
  (Hquery : c (HistorySince location (Date.format cutoff)) = Ok (r :: more)) :
  historyHandler (Some c) zone now location hoursParam
  = ([],
     match map_result normalizeDoc (r :: more) with
     | Ok docs =>
         Ok {| status := 200; headers := [noCache]; body := JArr docs |}
     | Throw e => Throw e
     end).
Proof.
  unfold historyHandler, locationVariants. cbn [filter].
  rewrite (truthy_JStr Hkey), Hcut. cbn [strings historyLoop].
  cbv [historyAttempt Date.toISOString lift bind try_catch ret].
  rewrite Hquery. cbn [app].
  destruct (map_result normalizeDoc (r :: more)); reflexivity.
Qed.

Lemma history_keeps_store_order_witness :
  Date.minusHours Date.utc Examples.now (lookbackHours (Some "2"))
  = Some 1736929800000%Z
  /\ Cosmos.run Examples.historyStore
       (HistorySince "dows-lake" (Date.format 1736929800000))
     = Ok [Examples.oneHourAgo; Examples.halfHourAgo]
  /\ historyHandler (Some (Cosmos.run Examples.historyStore)) Date.utc Examples.now
       "dows-lake" (Some "2")
     = ([],
        match map_result normalizeDoc
                [Examples.oneHourAgo; Examples.halfHourAgo] with
        | Ok docs =>
            Ok {| status := 200; headers := [noCache]; body := JArr docs |}
        | Throw e => Throw e
        end).
Proof.
  split; [reflexivity|]. split; [vm_compute; reflexivity|].
  apply (@history_keeps_store_order (Cosmos.run Examples.historyStore)
           Date.utc Examples.now "dows-lake" (Some "2") 1736929800000%Z
           Examples.oneHourAgo [Examples.halfHourAgo]).
  - discriminate.
  - reflexivity.
  - vm_compute. reflexivity.
Defined.
